(** * Camera viewer (FLTK + OpenCV): a shallow embedding of [main.cpp]

    The program opens a camera, negotiates a resolution and a frame rate,
    pumps frames into a display buffer from a self re-arming timer callback and
    saves snapshots on request.  Its state is the global [app] structure; the
    camera driver, the image routines, the widgets and the file system are
    outside the program and are reached through calls that are recorded here in
    a trace.  C++ [double] is the kernel's binary64 [float], [int] is [Z]. *)

From Stdlib Require Import ZArith List String Ascii Bool Lia.
From Stdlib Require Import Floats DecimalString.
From stdpp Require Import base gmap.

Import ListNotations.
Set Warnings "-inexact-float".
Local Open Scope string_scope.
Local Open Scope Z_scope.

(** ** Numbers *)

Module Double.

(** [static_cast<double>(int)]: exact for every 32-bit [int]. *)
Definition of_int (z : Z) : float :=
  match z with
  | Z0 => PrimFloat.zero
  | Zpos _ => PrimFloat.of_uint63 (Uint63.of_Z z)
  | Zneg _ => PrimFloat.opp (PrimFloat.of_uint63 (Uint63.of_Z (Z.opp z)))
  end.

Definition INT_MIN : Z := - 2 ^ 31.
Definition INT_MAX : Z := 2 ^ 31 - 1.

(** The integer part of a finite binary64 value, rounded toward zero. *)
Definition trunc (f : float) : option Z :=
  match Prim2SF f with
  | S754_zero _ => Some 0
  | S754_finite s m e =>
      let a := if e <? 0 then Z.shiftr (Zpos m) (- e) else Z.shiftl (Zpos m) e in
      Some (if s then - a else a)
  | S754_infinity _ | S754_nan => None
  end.

(** [static_cast<int>(double)]: the fractional part is discarded; when the
    truncated value does not fit an [int] (or the value is an infinity or a
    NaN) the behaviour is undefined, which is [None] here. *)
Definition to_int (f : float) : option Z :=
  match trunc f with
  | Some z => if (INT_MIN <=? z) && (z <=? INT_MAX) then Some z else None
  | None => None
  end.

(** [std::abs(actual - wanted) < 1.0], the test of [detect_fps]. *)
Definition within_one (actual wanted : float) : bool :=
  PrimFloat.ltb (PrimFloat.abs (PrimFloat.sub actual wanted)) 1%float.

(** A usable timer period: strictly positive and finite. *)
Definition positive_finite (f : float) : bool :=
  PrimFloat.ltb 0%float f && PrimFloat.ltb f PrimFloat.infinity.

End Double.

Arguments Double.of_int : simpl never.
Arguments Double.to_int : simpl never.
Arguments Double.within_one : simpl never.
Arguments Double.positive_finite : simpl never.

(** ** Images *)

(** One pixel of a [CV_8UC3] matrix: three interleaved byte channels. *)
Record Vec3b := { ch0 : Byte.byte; ch1 : Byte.byte; ch2 : Byte.byte }.

(** [cv::Mat] restricted to the element type the program uses ([CV_8UC3]):
    its shape and its pixels in row-major order. *)
Record Mat := { rows : Z; cols : Z; data : list Vec3b }.

(** [cv::Mat()]: no rows, no columns, no buffer. *)
Definition Mat_default : Mat := {| rows := 0; cols := 0; data := [] |}.

(** [Mat::empty()]. *)
Definition Mat_empty (m : Mat) : bool := (rows m =? 0) || (cols m =? 0).

(** [Mat::create(rows, cols, CV_8UC3)]: a matrix that already has the shape is
    left alone; otherwise a new buffer is allocated, whose content [fill] is
    whatever the allocator hands out. *)
Definition Mat_create (fill : list Vec3b) (r c : Z) (m : Mat) : Mat :=
  if (rows m =? r) && (cols m =? c) && negb (Mat_empty m) then m
  else {| rows := r; cols := c; data := fill |}.

Inductive ColorCode := COLOR_BGR2RGB | COLOR_RGB2BGR.

(** Both conversions exchange the first and the third channel. *)
Definition swap_channels (p : Vec3b) : Vec3b :=
  {| ch0 := ch2 p; ch1 := ch1 p; ch2 := ch0 p |}.

(** [cv::cvtColor(src, dst, code)] for the two codes in use; an empty source
    raises [cv::Exception], which is [None].  A frame of another element type
    than [CV_8UC3], which the routine rejects in the same way, is outside
    [Mat]. *)
Definition cvtColor (src : Mat) (code : ColorCode) : option Mat :=
  if Mat_empty src then None
  else Some {| rows := rows src; cols := cols src;
               data := List.map swap_channels (data src) |}.

(** The image library routines whose result is not determined by the program:
    [cv::resize] (interpolation) is taken with its size contract, and
    [uninitialized] stands for the content of newly allocated pixel memory. *)
Class ImgProc := {
  resize : Mat -> Z -> Z -> option Mat;
  resize_size : forall src w h dst,
    resize src w h = Some dst -> rows dst = h /\ cols dst = w;
  uninitialized : Z -> Z -> list Vec3b
}.

(** ** The camera driver *)

Inductive CapProp :=
| CAP_PROP_FRAME_WIDTH | CAP_PROP_FRAME_HEIGHT | CAP_PROP_FPS
| CAP_PROP_AUTO_EXPOSURE | CAP_PROP_AUTOFOCUS.

(** [cv::VideoCapture] over a driver state [Dev].  Every call may change the
    driver; the program never looks at the [bool] that [open] and [set]
    return, so those are not part of the interface. *)
Class VideoCapture (Dev : Type) := {
  vc_open : Z -> Dev -> Dev;
  vc_isOpened : Dev -> bool;
  vc_set : CapProp -> float -> Dev -> Dev;
  vc_get : CapProp -> Dev -> float * Dev;
  vc_grab : Dev -> bool * Dev;
  vc_retrieve : Mat -> Dev -> bool * Mat * Dev;
  vc_release : Dev -> Dev
}.

(** ** Widgets and the heap of image objects *)

(** Address of a heap object. *)
Definition ptr := positive.

(** [Fl_RGB_Image(bits, W, H, D, LD)]; [bits] points into the display buffer. *)
Record Fl_RGB_Image := { img_w : Z; img_h : Z; img_d : Z; img_ld : Z }.

Record Fl_Box := { box_w : Z; box_h : Z; box_image : option ptr }.

Record Fl_Window := { win_w : Z; win_h : Z; win_label : string; win_shown : bool }.

(** ** The application structure *)

Section Program.

Context {Dev : Type} `{VideoCapture Dev} `{ImgProc}.

(** [struct CameraApp]; a null pointer is [None]. *)
Record CameraApp := {
  cap : Dev;
  frame : Mat;
  frame_rgb : Mat;
  cached_frame : Mat;
  fltk_img : option ptr;
  display_box : option Fl_Box;
  window : option Fl_Window;
  is_running : bool;
  optimal_width : Z;
  optimal_height : Z;
  optimal_fps : float
}.

(** The global [app] before [main] runs, for a driver in state [d]. *)
Definition app_init (d : Dev) : CameraApp :=
  {| cap := d; frame := Mat_default; frame_rgb := Mat_default;
     cached_frame := Mat_default; fltk_img := None; display_box := None;
     window := None; is_running := true;
     optimal_width := 640; optimal_height := 480; optimal_fps := 30%float |}.

Definition set_cap (d : Dev) (a : CameraApp) : CameraApp :=
  {| cap := d; frame := frame a; frame_rgb := frame_rgb a;
     cached_frame := cached_frame a; fltk_img := fltk_img a;
     display_box := display_box a; window := window a;
     is_running := is_running a; optimal_width := optimal_width a;
     optimal_height := optimal_height a; optimal_fps := optimal_fps a |}.

Definition set_frame (m : Mat) (a : CameraApp) : CameraApp :=
  {| cap := cap a; frame := m; frame_rgb := frame_rgb a;
     cached_frame := cached_frame a; fltk_img := fltk_img a;
     display_box := display_box a; window := window a;
     is_running := is_running a; optimal_width := optimal_width a;
     optimal_height := optimal_height a; optimal_fps := optimal_fps a |}.

Definition set_frame_rgb (m : Mat) (a : CameraApp) : CameraApp :=
  {| cap := cap a; frame := frame a; frame_rgb := m;
     cached_frame := cached_frame a; fltk_img := fltk_img a;
     display_box := display_box a; window := window a;
     is_running := is_running a; optimal_width := optimal_width a;
     optimal_height := optimal_height a; optimal_fps := optimal_fps a |}.

Definition set_cached_frame (m : Mat) (a : CameraApp) : CameraApp :=
  {| cap := cap a; frame := frame a; frame_rgb := frame_rgb a;
     cached_frame := m; fltk_img := fltk_img a;
     display_box := display_box a; window := window a;
     is_running := is_running a; optimal_width := optimal_width a;
     optimal_height := optimal_height a; optimal_fps := optimal_fps a |}.

Definition set_fltk_img (p : option ptr) (a : CameraApp) : CameraApp :=
  {| cap := cap a; frame := frame a; frame_rgb := frame_rgb a;
     cached_frame := cached_frame a; fltk_img := p;
     display_box := display_box a; window := window a;
     is_running := is_running a; optimal_width := optimal_width a;
     optimal_height := optimal_height a; optimal_fps := optimal_fps a |}.

Definition set_display_box (b : option Fl_Box) (a : CameraApp) : CameraApp :=
  {| cap := cap a; frame := frame a; frame_rgb := frame_rgb a;
     cached_frame := cached_frame a; fltk_img := fltk_img a;
     display_box := b; window := window a;
     is_running := is_running a; optimal_width := optimal_width a;
     optimal_height := optimal_height a; optimal_fps := optimal_fps a |}.

Definition set_window (v : option Fl_Window) (a : CameraApp) : CameraApp :=
  {| cap := cap a; frame := frame a; frame_rgb := frame_rgb a;
     cached_frame := cached_frame a; fltk_img := fltk_img a;
     display_box := display_box a; window := v;
     is_running := is_running a; optimal_width := optimal_width a;
     optimal_height := optimal_height a; optimal_fps := optimal_fps a |}.

Definition set_is_running (b : bool) (a : CameraApp) : CameraApp :=
  {| cap := cap a; frame := frame a; frame_rgb := frame_rgb a;
     cached_frame := cached_frame a; fltk_img := fltk_img a;
     display_box := display_box a; window := window a;
     is_running := b; optimal_width := optimal_width a;
     optimal_height := optimal_height a; optimal_fps := optimal_fps a |}.

Definition set_optimal_size (w h : Z) (a : CameraApp) : CameraApp :=
  {| cap := cap a; frame := frame a; frame_rgb := frame_rgb a;
     cached_frame := cached_frame a; fltk_img := fltk_img a;
     display_box := display_box a; window := window a;
     is_running := is_running a; optimal_width := w;
     optimal_height := h; optimal_fps := optimal_fps a |}.

Definition set_optimal_fps (f : float) (a : CameraApp) : CameraApp :=
  {| cap := cap a; frame := frame a; frame_rgb := frame_rgb a;
     cached_frame := cached_frame a; fltk_img := fltk_img a;
     display_box := display_box a; window := window a;
     is_running := is_running a; optimal_width := optimal_width a;
     optimal_height := optimal_height a; optimal_fps := f |}.

(** ** Calls that leave the program *)

Inductive Event :=
| EvCapOpen (index : Z)
| EvCapIsOpened (answer : bool)
| EvCapSet (p : CapProp) (v : float)
| EvCapGet (p : CapProp) (answer : float)
| EvCapGrab (ok : bool)
| EvCapRetrieve (ok : bool)
| EvCapRelease
| EvResize (w h : Z)
| EvCvtColor (code : ColorCode)
| EvCopyTo
| EvImwrite (filename : string) (img : Mat) (ok : bool)
| EvAlert (fmt arg : string)
| EvMessageTitle (title : string)
| EvMessage (text : string)
| EvNewImage (p : ptr)
| EvDeleteImage (p : ptr)
| EvBoxImage (img : option ptr)
| EvBoxRedraw
| EvWindowRedraw
| EvFlush
| EvNewButton (x y w h : Z) (label : string)
| EvWindowShow
| EvWindowHide
| EvAddTimeout (t : float)
| EvRepeatTimeout (t : float).

(** What the process consists of: the global structure, the live
    [Fl_RGB_Image] objects, and the calls made so far (oldest first). *)
Record World := {
  app : CameraApp;
  heap : gmap ptr Fl_RGB_Image;
  trace : list Event
}.

Definition world_init (d : Dev) : World :=
  {| app := app_init d; heap := ∅; trace := [] |}.

(** Ways the C++ program leaves defined behaviour or is terminated. *)
Inductive Fault :=
| NullPointer
| DeleteDangling (p : ptr)
| IntCastOverflow (f : float)
| CvException.

(** A computation either finishes with a value or stops at a fault; both
    carry the world reached. *)
Inductive Outcome (A : Type) :=
| Done (a : A) (w : World)
| Stuck (f : Fault) (w : World).
Arguments Done {A} a w.
Arguments Stuck {A} f w.

Definition final {A} (o : Outcome A) : World :=
  match o with Done _ w => w | Stuck _ w => w end.

Definition M (A : Type) : Type := World -> Outcome A.

Definition ret {A} (a : A) : M A := fun w => Done a w.

Definition bind {A B} (m : M A) (k : A -> M B) : M B :=
  fun w => match m w with
           | Done a w' => k a w'
           | Stuck f w' => Stuck f w'
           end.

Definition fault {A} (f : Fault) : M A := fun w => Stuck f w.

Definition get_app : M CameraApp := fun w => Done (app w) w.

Definition modify_app (f : CameraApp -> CameraApp) : M unit :=
  fun w => Done tt {| app := f (app w); heap := heap w; trace := trace w |}.

Definition emit (e : Event) : M unit :=
  fun w => Done tt {| app := app w; heap := heap w; trace := trace w ++ [e] |}.

Notation "x <- m ;; k" := (bind m (fun x => k))
  (at level 20, m at level 99, k at level 200, only parsing).
Notation "m ;; k" := (bind m (fun _ => k))
  (at level 100, k at level 200, right associativity, only parsing).

(** [static_cast<int>(f)].  For a value that does not fit an [int] the
    conversion has no defined result in C++; the model follows such a run no
    further.  What a compiled program does from there on is not described. *)
Definition static_cast_int (f : float) : M Z :=
  match Double.to_int f with
  | Some z => ret z
  | None => fault (IntCastOverflow f)
  end.

(** *** [app.cap] *)

Definition cap_open (index : Z) : M unit :=
  a <- get_app ;;
  modify_app (set_cap (vc_open index (cap a))) ;;
  emit (EvCapOpen index).

Definition cap_isOpened : M bool :=
  a <- get_app ;;
  let b := vc_isOpened (cap a) in
  emit (EvCapIsOpened b) ;;
  ret b.

Definition cap_set (p : CapProp) (v : float) : M unit :=
  a <- get_app ;;
  modify_app (set_cap (vc_set p v (cap a))) ;;
  emit (EvCapSet p v).

Definition cap_get (p : CapProp) : M float :=
  a <- get_app ;;
  let '(v, d) := vc_get p (cap a) in
  modify_app (set_cap d) ;;
  emit (EvCapGet p v) ;;
  ret v.

Definition cap_grab : M bool :=
  a <- get_app ;;
  let '(ok, d) := vc_grab (cap a) in
  modify_app (set_cap d) ;;
  emit (EvCapGrab ok) ;;
  ret ok.

(** [app.cap.retrieve(app.frame)]. *)
Definition cap_retrieve_frame : M bool :=
  a <- get_app ;;
  let '(ok, m, d) := vc_retrieve (frame a) (cap a) in
  modify_app (fun a => set_frame m (set_cap d a)) ;;
  emit (EvCapRetrieve ok) ;;
  ret ok.

Definition cap_release : M unit :=
  a <- get_app ;;
  modify_app (set_cap (vc_release (cap a))) ;;
  emit EvCapRelease.

(** *** Image routines *)

Definition cv_resize (src : Mat) (w h : Z) : M Mat :=
  emit (EvResize w h) ;;
  match resize src w h with
  | Some dst => ret dst
  | None => fault CvException
  end.

Definition cv_cvtColor (src : Mat) (code : ColorCode) : M Mat :=
  emit (EvCvtColor code) ;;
  match cvtColor src code with
  | Some dst => ret dst
  | None => fault CvException
  end.

(** [cv::imwrite(filename, img)]; [ok] is what the file system answers. *)
Definition cv_imwrite (ok : bool) (filename : string) (img : Mat) : M bool :=
  emit (EvImwrite filename img ok) ;;
  ret ok.

(** *** Toolkit calls *)

Definition fl_alert (fmt arg : string) : M unit := emit (EvAlert fmt arg).

Definition fl_message_title (title : string) : M unit :=
  emit (EvMessageTitle title).

Definition fl_message (text : string) : M unit := emit (EvMessage text).

(** [new Fl_RGB_Image(...)]: the object gets an address no live object has. *)
Definition new_Fl_RGB_Image (img : Fl_RGB_Image) : M ptr :=
  fun w =>
    let p := fresh (dom (heap w)) in
    Done p {| app := app w; heap := <[p := img]> (heap w);
              trace := trace w ++ [EvNewImage p] |}.

(** [delete p] for a non-null [p]: defined only while the object is live. *)
Definition delete_Fl_RGB_Image (p : ptr) : M unit :=
  fun w =>
    match heap w !! p with
    | Some _ =>
        Done tt {| app := app w; heap := delete p (heap w);
                   trace := trace w ++ [EvDeleteImage p] |}
    | None => Stuck (DeleteDangling p) w
    end.

(** [app.display_box->image(img)]. *)
Definition display_box_image (img : option ptr) : M unit :=
  a <- get_app ;;
  match display_box a with
  | Some b =>
      modify_app (set_display_box
        (Some {| box_w := box_w b; box_h := box_h b; box_image := img |})) ;;
      emit (EvBoxImage img)
  | None => fault NullPointer
  end.

Definition display_box_redraw : M unit :=
  a <- get_app ;;
  match display_box a with
  | Some _ => emit EvBoxRedraw
  | None => fault NullPointer
  end.

Definition window_redraw : M unit :=
  a <- get_app ;;
  match window a with
  | Some _ => emit EvWindowRedraw
  | None => fault NullPointer
  end.

Definition window_set_shown (b : bool) (e : Event) : M unit :=
  a <- get_app ;;
  match window a with
  | Some v =>
      modify_app (set_window
        (Some {| win_w := win_w v; win_h := win_h v;
                 win_label := win_label v; win_shown := b |})) ;;
      emit e
  | None => fault NullPointer
  end.

Definition window_show : M unit := window_set_shown true EvWindowShow.
Definition window_hide : M unit := window_set_shown false EvWindowHide.

(** ** The program *)

Definition resolutions : list (Z * Z) :=
  [(3840, 2160); (2560, 1440); (1920, 1080);
   (1280, 720); (1280, 960); (800, 600); (640, 480)].

(** The [for] loop of [detect_resolutions] over the candidates still to try. *)
Fixpoint detect_resolutions_from (l : list (Z * Z)) : M unit :=
  match l with
  | [] => ret tt
  | res :: rest =>
      cap_set CAP_PROP_FRAME_WIDTH (Double.of_int (fst res)) ;;
      cap_set CAP_PROP_FRAME_HEIGHT (Double.of_int (snd res)) ;;
      w <- cap_get CAP_PROP_FRAME_WIDTH ;;
      actual_w <- static_cast_int w ;;
      h <- cap_get CAP_PROP_FRAME_HEIGHT ;;
      actual_h <- static_cast_int h ;;
      if (actual_w =? fst res) && (actual_h =? snd res)
      then modify_app (set_optimal_size actual_w actual_h)
      else detect_resolutions_from rest
  end.

Definition detect_resolutions : M unit := detect_resolutions_from resolutions.

Definition fps_candidates : list float :=
  [60; 50; 30; 25; 24; 15; 10]%float.

(** The [for] loop of [detect_fps]; the statement after the loop is reached
    only when no candidate returned. *)
Fixpoint detect_fps_from (l : list float) : M unit :=
  match l with
  | [] =>
      f <- cap_get CAP_PROP_FPS ;;
      modify_app (set_optimal_fps f)
  | fps :: rest =>
      cap_set CAP_PROP_FPS fps ;;
      actual_fps <- cap_get CAP_PROP_FPS ;;
      if Double.within_one actual_fps fps
      then modify_app (set_optimal_fps actual_fps)
      else detect_fps_from rest
  end.

Definition detect_fps : M unit := detect_fps_from fps_candidates.

(** [std::to_string] of a [time_t]. *)
Definition to_string (z : Z) : string := NilZero.string_of_int (Z.to_int z).

Definition newline : string := String (ascii_of_nat 10) EmptyString.

(** What a [printf]-style call shows for a format with at most one [%s]. *)
Fixpoint format_s (fmt arg : string) : string :=
  match fmt with
  | String "%" (String "s" rest) => arg ++ rest
  | String c rest => String c (format_s rest arg)
  | EmptyString => EmptyString
  end.

(** [screenshot_callback]; [now_time] is the clock reading and [write_ok] the
    file system's answer to the one write. *)
Definition screenshot_callback (now_time : Z) (write_ok : bool) : M unit :=
  a <- get_app ;;
  if Mat_empty (cached_frame a)
  then fl_alert "截图失败" "没有可保存的图像数据"
  else
    let filename := "screenshot_" ++ to_string now_time ++ ".png" in
    bgr_frame <- cv_cvtColor (cached_frame a) COLOR_RGB2BGR ;;
    saved <- cv_imwrite write_ok filename bgr_frame ;;
    if saved
    then fl_message_title "截图成功" ;;
         fl_message (format_s ("图像已保存为:" ++ newline ++ "%s") filename)
    else fl_alert "截图失败" "无法保存图像文件".

Definition update_frame : M unit :=
  a <- get_app ;;
  if negb (is_running a) then ret tt else
  grabbed <- cap_grab ;;
  if negb grabbed
  then fl_alert "摄像头错误" "无法捕获视频帧，程序将退出" ;;
       modify_app (set_is_running false)
  else
  retrieved <- cap_retrieve_frame ;;
  if negb retrieved
  then fl_alert "摄像头错误" "无法解码视频帧，程序将退出" ;;
       modify_app (set_is_running false)
  else
  a <- get_app ;;
  resized <- cv_resize (frame a) (optimal_width a) (optimal_height a) ;;
  modify_app (set_frame resized) ;;
  rgb <- cv_cvtColor resized COLOR_BGR2RGB ;;
  modify_app (set_frame_rgb rgb) ;;
  emit EvCopyTo ;;
  modify_app (set_cached_frame rgb) ;;
  a <- get_app ;;
  match fltk_img a with
  | Some p => display_box_image None ;; delete_Fl_RGB_Image p
  | None => ret tt
  end ;;
  p <- new_Fl_RGB_Image {| img_w := cols (cached_frame a);
                           img_h := rows (cached_frame a);
                           img_d := 3; img_ld := 0 |} ;;
  modify_app (set_fltk_img (Some p)) ;;
  display_box_image (Some p) ;;
  display_box_redraw ;;
  window_redraw ;;
  emit EvFlush ;;
  emit (EvRepeatTimeout (1 / optimal_fps a)%float).

Definition window_close_callback : M unit :=
  modify_app (set_is_running false) ;;
  cap_release ;;
  a <- get_app ;;
  match fltk_img a with
  | Some p => display_box_image None ;; delete_Fl_RGB_Image p
  | None => ret tt
  end ;;
  window_hide.

(** What the toolkit's loop hands to the program. *)
Inductive GuiEvent :=
| TimerExpired
| ScreenshotPressed (now_time : Z) (write_ok : bool)
| CloseRequested.

Definition dispatch (e : GuiEvent) : M unit :=
  match e with
  | TimerExpired => update_frame
  | ScreenshotPressed now_time write_ok => screenshot_callback now_time write_ok
  | CloseRequested => window_close_callback
  end.

(** [Fl::run()] for a given sequence of deliveries.  The toolkit decides the
    sequence; the properties below hold for every one.  Every request of the
    list is served, also those that the toolkit would no longer deliver once
    the window is hidden: [Fl_run_shown] below has its exit test. *)
Fixpoint Fl_run (evs : list GuiEvent) : M unit :=
  match evs with
  | [] => ret tt
  | e :: rest => dispatch e ;; Fl_run rest
  end.



(** [main] up to the call of [Fl::run]: [false] when it returned [-1]. *)
Definition startup : M bool :=
  cap_open 0 ;;
  opened <- cap_isOpened ;;
  if negb opened
  then fl_alert "初始化失败" "无法打开摄像头，请检查设备是否连接" ;; ret false
  else
  detect_resolutions ;;
  detect_fps ;;
  a <- get_app ;;
  modify_app (set_frame_rgb
    (Mat_create (uninitialized (optimal_height a) (optimal_width a))
       (optimal_height a) (optimal_width a) (frame_rgb a))) ;;
  modify_app (set_cached_frame
    (Mat_create (uninitialized (optimal_height a) (optimal_width a))
       (optimal_height a) (optimal_width a) (cached_frame a))) ;;
  cap_set CAP_PROP_AUTO_EXPOSURE 1 ;;
  cap_set CAP_PROP_AUTOFOCUS 1 ;;
  modify_app (set_window
    (Some {| win_w := optimal_width a; win_h := optimal_height a + 30;
             win_label := "摄像头监控（FLTK界面）"; win_shown := false |})) ;;
  modify_app (set_display_box
    (Some {| box_w := optimal_width a; box_h := optimal_height a;
             box_image := None |})) ;;
  emit (EvNewButton (Z.quot (optimal_width a - 100) 2) (optimal_height a + 5)
          100 25 "截图") ;;
  window_show ;;
  emit (EvAddTimeout 0) ;;
  ret true.

Definition main (evs : list GuiEvent) : M Z :=
  started <- startup ;;
  if started then Fl_run evs ;; ret 0 else ret (-1).

End Program.

Arguments Done {Dev A} a w.
Arguments Stuck {Dev A} f w.

(** ** Reading a run *)

Section Observations.

Context {Dev : Type} `{VideoCapture Dev}.

(** The driver's answer to one frame-rate request, and the driver afterwards. *)
Definition ask_fps (fps : float) (d : Dev) : float * Dev :=
  vc_get CAP_PROP_FPS (vc_set CAP_PROP_FPS fps d).

(** The driver after each rate of [l] was requested and read back. *)
Fixpoint after_fps (l : list float) (d : Dev) : Dev :=
  match l with
  | [] => d
  | fps :: rest => after_fps rest (snd (ask_fps fps d))
  end.

(** No rate of [l], requested in order from [d], is answered within one unit. *)
Fixpoint fps_all_rejected (l : list float) (d : Dev) : bool :=
  match l with
  | [] => true
  | fps :: rest =>
      negb (Double.within_one (fst (ask_fps fps d)) fps)
      && fps_all_rejected rest (snd (ask_fps fps d))
  end.

(** The driver's answers to one resolution request (width, then height), and
    the driver afterwards. *)
Definition ask_resolution (res : Z * Z) (d : Dev) : float * float * Dev :=
  let d1 := vc_set CAP_PROP_FRAME_WIDTH (Double.of_int (fst res)) d in
  let d2 := vc_set CAP_PROP_FRAME_HEIGHT (Double.of_int (snd res)) d1 in
  let '(w, d3) := vc_get CAP_PROP_FRAME_WIDTH d2 in
  let '(h, d4) := vc_get CAP_PROP_FRAME_HEIGHT d3 in
  (w, h, d4).

Definition answered_size (res : Z * Z) (d : Dev) : option Z * option Z :=
  let '(w, h, _) := ask_resolution res d in (Double.to_int w, Double.to_int h).

Fixpoint after_resolutions (l : list (Z * Z)) (d : Dev) : Dev :=
  match l with
  | [] => d
  | res :: rest => after_resolutions rest (snd (ask_resolution res d))
  end.

(** Every resolution of [l], requested in order from [d], is answered with a
    size that converts to [int] and differs from the request. *)
Fixpoint resolutions_all_rejected (l : list (Z * Z)) (d : Dev) : bool :=
  match l with
  | [] => true
  | res :: rest =>
      match answered_size res d with
      | (Some w, Some h) =>
          negb ((w =? fst res) && (h =? snd res))
          && resolutions_all_rejected rest (snd (ask_resolution res d))
      | _ => false
      end
  end.

(** Every read-back that probing [l] on [d] makes converts to [int]: the
    candidates are asked in order up to the first one answered exactly. *)
Fixpoint readbacks_convert (l : list (Z * Z)) (d : Dev) : bool :=
  match l with
  | [] => true
  | res :: rest =>
      match answered_size res d with
      | (Some w, Some h) =>
          ((w =? fst res) && (h =? snd res))
          || readbacks_convert rest (snd (ask_resolution res d))
      | _ => false
      end
  end.

End Observations.

(** The property requests in a trace, oldest first. *)
Fixpoint requests (t : list Event) : list (CapProp * float) :=
  match t with
  | [] => []
  | EvCapSet p v :: rest => (p, v) :: requests rest
  | _ :: rest => requests rest
  end.

Definition size_requests (res : Z * Z) : list (CapProp * float) :=
  [(CAP_PROP_FRAME_WIDTH, Double.of_int (fst res));
   (CAP_PROP_FRAME_HEIGHT, Double.of_int (snd res))].

Definition fps_requests (l : list float) : list (CapProp * float) :=
  List.map (fun fps => (CAP_PROP_FPS, fps)) l.

Definition all_size_requests (l : list (Z * Z)) : list (CapProp * float) :=
  List.concat (List.map size_requests l).

(** Each rate is strictly below the one before it. *)
Fixpoint descending (l : list float) : bool :=
  match l with
  | a :: (b :: _) as rest => PrimFloat.ltb b a && descending rest
  | _ => true
  end.

(** Widths never increase along the list. *)
Fixpoint widths_descending (l : list (Z * Z)) : bool :=
  match l with
  | a :: (b :: _) as rest => (fst b <=? fst a) && widths_descending rest
  | _ => true
  end.

(** Calls that only a frame update makes. *)
Definition is_pump_event (e : Event) : bool :=
  match e with
  | EvCapGrab _ | EvCapRetrieve _ | EvResize _ _ | EvCvtColor COLOR_BGR2RGB
  | EvCopyTo | EvNewImage _ | EvBoxImage (Some _) | EvBoxRedraw
  | EvWindowRedraw | EvFlush | EvAddTimeout _ | EvRepeatTimeout _ => true
  | _ => false
  end.

Definition is_file_write (e : Event) : bool :=
  match e with EvImwrite _ _ _ => true | _ => false end.

(** ** Conditions on the state *)

Section Conditions.

Context {Dev : Type}.

(** The display buffer has the negotiated size. *)
Definition display_matches_optimal (w : @World Dev) : Prop :=
  rows (cached_frame (app w)) = optimal_height (app w)
  /\ cols (cached_frame (app w)) = optimal_width (app w).

Definition same_negotiation (w w' : @World Dev) : Prop :=
  optimal_width (app w') = optimal_width (app w)
  /\ optimal_height (app w') = optimal_height (app w)
  /\ optimal_fps (app w') = optimal_fps (app w).

Definition same_buffers (w w' : @World Dev) : Prop :=
  frame (app w') = frame (app w)
  /\ frame_rgb (app w') = frame_rgb (app w)
  /\ cached_frame (app w') = cached_frame (app w).

(** Both widgets exist and [fltk_img], when set, points to a live object:
    what [main] establishes before the loop starts. *)
Definition widgets_ready (w : @World Dev) : Prop :=
  display_box (app w) <> None /\ window (app w) <> None
  /\ forall p, fltk_img (app w) = Some p -> heap w !! p <> None.

(** From [w] to [w']: still stopped, no buffer and no negotiated value
    changed, and none of the calls made in between is one a frame update
    makes (in particular no timer was armed). *)
Definition stays_stopped (w w' : @World Dev) : Prop :=
  is_running (app w') = false
  /\ same_buffers w w' /\ same_negotiation w w'
  /\ exists t, trace w' = (trace w ++ t)%list
       /\ Forall (fun e => is_pump_event e = false) t.

(** [t] holds no call that a frame update makes. *)
Definition no_pump_events (t : list Event) : Prop :=
  Forall (fun e => is_pump_event e = false) t.

Definition no_file_writes (t : list Event) : Prop :=
  Forall (fun e => is_file_write e = false) t.

(** Every resize in [t] asks for [ow] x [oh]. *)
Definition resizes_only_to (ow oh : Z) (t : list Event) : Prop :=
  Forall (fun e => match e with
                   | EvResize w h => w = ow /\ h = oh
                   | _ => True
                   end) t.

(** From [w] to [w']: the display buffer has the negotiated size, the
    negotiated values are those of [w], and every resize in between asked for
    that size. *)
Definition keeps_size (w w' : @World Dev) : Prop :=
  display_matches_optimal w' /\ same_negotiation w w'
  /\ exists t, trace w' = (trace w ++ t)%list
       /\ resizes_only_to (optimal_width (app w)) (optimal_height (app w)) t.

End Conditions.

(** ** Conditions on whole runs *)

(** Property requests and read-backs: the calls of the two probes. *)
Definition is_negotiation_event (e : Event) : bool :=
  match e with
  | EvCapSet _ _ | EvCapGet _ _ => true
  | _ => false
  end.

(** Calls on [app.cap]. *)
Definition is_cap_event (e : Event) : bool :=
  match e with
  | EvCapOpen _ | EvCapIsOpened _ | EvCapSet _ _ | EvCapGet _ _
  | EvCapGrab _ | EvCapRetrieve _ | EvCapRelease => true
  | _ => false
  end.

Definition is_timer_event (e : Event) : bool :=
  match e with
  | EvAddTimeout _ | EvRepeatTimeout _ => true
  | _ => false
  end.

(** How often a trace arms the timer. *)
Definition arms (t : list Event) : nat := length (List.filter is_timer_event t).

(** How many file writes a trace attempts. *)
Definition writes (t : list Event) : nat := length (List.filter is_file_write t).

Definition is_grab (e : Event) : bool :=
  match e with EvCapGrab _ => true | _ => false end.

(** How many frames a trace tries to latch. *)
Definition grabs (t : list Event) : nat := length (List.filter is_grab t).

Definition is_press (e : GuiEvent) : bool :=
  match e with ScreenshotPressed _ _ => true | _ => false end.

(** What the dialog of an alert shows is its first string: the second one is
    an argument that the format never uses. *)
Definition alert_shows_caption_only (e : Event) : Prop :=
  match e with
  | EvAlert fmt arg => format_s fmt arg = fmt
  | _ => True
  end.

(** The alert of a tick that could not latch or decode. *)
Definition is_camera_alert (e : Event) : bool :=
  match e with
  | EvAlert fmt _ => String.eqb fmt "摄像头错误"
  | _ => false
  end.

Definition camera_alerts (t : list Event) : nat :=
  length (List.filter is_camera_alert t).

Definition is_tick (e : GuiEvent) : bool :=
  match e with TimerExpired => true | _ => false end.

Definition is_close (e : GuiEvent) : bool :=
  match e with CloseRequested => true | _ => false end.

(** Timer expiries and close requests among the deliveries. *)
Definition ticks (evs : list GuiEvent) : nat := length (List.filter is_tick evs).
Definition closes (evs : list GuiEvent) : nat := length (List.filter is_close evs).
Definition presses (evs : list GuiEvent) : nat := length (List.filter is_press evs).




(** The image object that [update_frame] builds over the display buffer [m]. *)
Definition image_of (m : Mat) : Fl_RGB_Image :=
  {| img_w := cols m; img_h := rows m; img_d := 3; img_ld := 0 |}.

(** What one delivery may add to the trace: a tick at most one timer arming
    and one latch, a button press at most one file write. *)
Definition delivers (e : GuiEvent) (t : list Event) : Prop :=
  (arms t <= if is_tick e then 1 else 0)%nat
  /\ (grabs t <= if is_tick e then 1 else 0)%nat
  /\ (writes t <= if is_press e then 1 else 0)%nat
  /\ Forall alert_shows_caption_only t.

Section RunConditions.

Context {Dev : Type}.

(** The fault a computation stopped at, if it did. *)
Definition fault_of {A} (o : @Outcome Dev A) : option Fault :=
  match o with Done _ _ => None | Stuck f _ => Some f end.

(** Nothing but the driver, the negotiated values and the trace differs
    between [w] and [w'], and the trace grew by probe calls only. *)
Definition negotiated (w w' : @World Dev) : Prop :=
  same_buffers w w'
  /\ fltk_img (app w') = fltk_img (app w)
  /\ display_box (app w') = display_box (app w)
  /\ window (app w') = window (app w)
  /\ is_running (app w') = is_running (app w)
  /\ heap w' = heap w
  /\ exists t, trace w' = (trace w ++ t)%list
       /\ Forall (fun e => is_negotiation_event e = true) t.

(** The heap holds the image object [fltk_img] points to, built over the
    display buffer and shown by the display box, and nothing else. *)
Definition image_in_step (w : @World Dev) : Prop :=
  exists b, display_box (app w) = Some b
  /\ match fltk_img (app w) with
     | Some p => heap w = {[ p := image_of (cached_frame (app w)) ]}
                 /\ box_image b = Some p
     | None => heap w = ∅ /\ box_image b = None
     end.

(** The state the event loop works in until a close request arrives: the
    window is shown, the display buffer has the negotiated, positive size and
    the image object is in step with it. *)
Definition ready (w : @World Dev) : Prop :=
  (exists v, window (app w) = Some v /\ win_shown v = true)
  /\ image_in_step w
  /\ display_matches_optimal w
  /\ 0 < optimal_width (app w) /\ 0 < optimal_height (app w).

End RunConditions.

(** ** A driver and an image library to run the program on *)

(** A camera that follows a script: read-backs, latches and decoded frames are
    handed out in order ([0], failure and an empty frame once a list is used
    up); requests are ignored. *)
Record ScriptCam := {
  sc_opened : bool;
  sc_answers : list float;
  sc_grabs : list bool;
  sc_frames : list (bool * Mat)
}.

Definition sc_get (d : ScriptCam) : float * ScriptCam :=
  match sc_answers d with
  | [] => (0%float, d)
  | v :: rest =>
      (v, {| sc_opened := sc_opened d; sc_answers := rest;
             sc_grabs := sc_grabs d; sc_frames := sc_frames d |})
  end.

Definition sc_grab (d : ScriptCam) : bool * ScriptCam :=
  match sc_grabs d with
  | [] => (false, d)
  | b :: rest =>
      (b, {| sc_opened := sc_opened d; sc_answers := sc_answers d;
             sc_grabs := rest; sc_frames := sc_frames d |})
  end.

Definition sc_retrieve (d : ScriptCam) : bool * Mat * ScriptCam :=
  match sc_frames d with
  | [] => (false, Mat_default, d)
  | (b, m) :: rest =>
      (b, m, {| sc_opened := sc_opened d; sc_answers := sc_answers d;
                sc_grabs := sc_grabs d; sc_frames := rest |})
  end.

Definition sc_release (d : ScriptCam) : ScriptCam :=
  {| sc_opened := false; sc_answers := sc_answers d;
     sc_grabs := sc_grabs d; sc_frames := sc_frames d |}.

#[export] Instance ScriptCam_capture : VideoCapture ScriptCam := {|
  vc_open _ d := d;
  vc_isOpened := sc_opened;
  vc_set _ _ d := d;
  vc_get _ := sc_get;
  vc_grab := sc_grab;
  vc_retrieve _ := sc_retrieve;
  vc_release := sc_release
|}.

Definition black : Vec3b := {| ch0 := Byte.x00; ch1 := Byte.x00; ch2 := Byte.x00 |}.

(** [[i; i + 1; ...]], [n] numbers. *)
Fixpoint count_from (n : nat) (i : Z) : list Z :=
  match n with
  | O => []
  | S n' => i :: count_from n' (i + 1)
  end.

(** Nearest-neighbour sampling: destination pixel (x, y) is the source pixel
    at column [x * cols / w] of row [y * rows / h]. *)
Definition nn_row (src : Mat) (source_cols : list Z) (h y : Z) : list Vec3b :=
  let base := (y * rows src / h) * cols src in
  List.map (fun sx => nth (Z.to_nat (base + sx)) (data src) black) source_cols.

Definition nn_resize (src : Mat) (w h : Z) : option Mat :=
  if Mat_empty src || (w <=? 0) || (h <=? 0) then None
  else
    let source_cols :=
      List.map (fun x => x * cols src / w) (count_from (Z.to_nat w) 0) in
    Some {| rows := h; cols := w;
            data := List.concat
                      (List.map (nn_row src source_cols h)
                         (count_from (Z.to_nat h) 0)) |}.

Lemma nn_resize_size src w h dst :
  nn_resize src w h = Some dst -> rows dst = h /\ cols dst = w.
Proof.
  unfold nn_resize. destruct (_ || _); [discriminate|].
  intros [= <-]. split; reflexivity.
Qed.

#[export] Instance NearestNeighbour : ImgProc := {|
  resize := nn_resize;
  resize_size := nn_resize_size;
  uninitialized _ _ := []
|}.

(** A 2 x 1 frame in device order: one blue pixel, one red pixel. *)
Definition tiny_frame : Mat :=
  {| rows := 1; cols := 2;
     data := [ {| ch0 := Byte.xff; ch1 := Byte.x00; ch2 := Byte.x00 |};
               {| ch0 := Byte.x00; ch1 := Byte.x00; ch2 := Byte.xff |} ] |}.

Lemma nn_resize_defined src w h :
  Mat_empty src = false -> 0 < w -> 0 < h ->
  exists dst, nn_resize src w h = Some dst /\ Mat_empty dst = false.
Proof.
  intros He Hw Hh. unfold nn_resize. rewrite He.
  destruct (w <=? 0) eqn:Ew; [apply Z.leb_le in Ew; lia|].
  destruct (h <=? 0) eqn:Eh; [apply Z.leb_le in Eh; lia|].
  cbn. eexists. split; [reflexivity|].
  unfold Mat_empty. cbn.
  apply orb_false_intro; apply Z.eqb_neq; lia.
Qed.

(** A camera that refuses every size but 640 x 480 (it answers 0 x 0 to the
    six requests before), and then answers rate read-backs from [rates]. *)
Definition vga_cam (rates : list float) (grabs : list bool)
    (frames : list (bool * Mat)) : ScriptCam :=
  {| sc_opened := true;
     sc_answers :=
       ([0; 0; 0; 0; 0; 0; 0; 0; 0; 0; 0; 0; 640; 480]%float ++ rates)%list;
     sc_grabs := grabs;
     sc_frames := frames |}.

(** 30 frames per second; the first tick gets a frame, the second one latches
    but cannot decode. *)
Definition cam_ok : ScriptCam :=
  vga_cam [30; 30; 30]%float [true; true] [(true, tiny_frame); (false, Mat_default)].

(** 30 frames per second, but no frame can ever be latched. *)
Definition cam_dead : ScriptCam := vga_cam [30; 30; 30]%float [false] [].

(** Reports rate 0 whatever is requested; delivers one frame. *)
Definition cam_no_rate : ScriptCam := vga_cam [] [true] [(true, tiny_frame)].

(** Reports rate -5 whatever is requested; delivers one frame. *)
Definition cam_negative_rate : ScriptCam :=
  vga_cam [-5; -5; -5; -5; -5; -5; -5; -5]%float [true] [(true, tiny_frame)].

(** 30 frames per second; the first decode succeeds with an empty frame. *)
Definition cam_blank : ScriptCam :=
  vga_cam [30; 30; 30]%float [true] [(true, Mat_default)].

(** A camera that cannot be opened. *)
Definition cam_absent : ScriptCam :=
  {| sc_opened := false; sc_answers := []; sc_grabs := []; sc_frames := [] |}.

(** Reports 320 x 240 whatever is requested. *)
Definition cam_stubborn : ScriptCam :=
  {| sc_opened := true;
     sc_answers := [320; 240; 320; 240; 320; 240; 320; 240;
                    320; 240; 320; 240; 320; 240]%float;
     sc_grabs := []; sc_frames := [] |}.

(** Accepts 1920 x 1080 and 30 frames per second. *)
Definition cam_1080p : ScriptCam :=
  {| sc_opened := true;
     sc_answers := [0; 0; 0; 0; 1920; 1080; 30; 30; 30]%float;
     sc_grabs := [true]; sc_frames := [(true, tiny_frame)] |}.

(** The read-backs 59.9, 49.0, 30.0 to the rate requests 60, 50, 30. *)
Definition cam_59_9 : ScriptCam :=
  {| sc_opened := true; sc_answers := [59.9; 49.0; 30.0]%float;
     sc_grabs := []; sc_frames := [] |}.

(** The world in which [main] enters the event loop with camera [c]. *)
Definition started (c : ScriptCam) : World := final (startup (world_init c)).

Definition after_first_tick : World := final (update_frame (started cam_ok)).

(** * Properties *)

Section Properties.

Context {Dev : Type} `{VideoCapture Dev} `{ImgProc}.

Implicit Types (w : @World Dev) (d : Dev).

Ltac unfold_calls :=
  unfold cap_open, cap_isOpened, cap_set, cap_get, cap_grab, cap_retrieve_frame,
    cap_release, cv_resize, cv_cvtColor, cv_imwrite, fl_alert, fl_message_title,
    fl_message, display_box_image, display_box_redraw, window_redraw,
    window_show, window_hide, window_set_shown, static_cast_int,
    new_Fl_RGB_Image, delete_Fl_RGB_Image.

Ltac unfold_monad := unfold bind, ret, fault, get_app, modify_app, emit.

Ltac run :=
  unfold_calls; unfold_monad; cbn;
  repeat (progress (unfold_calls; unfold_monad); cbn).

(** ** The stopped flag *)

Lemma update_frame_stopped w :
  is_running (app w) = false -> update_frame w = Done tt w.
Proof.
  intros Hstop. unfold update_frame. run. rewrite Hstop. reflexivity.
Qed.

Lemma update_frame_grab_failed w d :
  is_running (app w) = true ->
  vc_grab (cap (app w)) = (false, d) ->
  update_frame w =
    Done tt {| app := set_is_running false (set_cap d (app w));
               heap := heap w;
               trace := trace w ++ [EvCapGrab false;
                          EvAlert "摄像头错误" "无法捕获视频帧，程序将退出"] |}.
Proof.
  intros Hrun Hgrab. unfold update_frame. run.
  rewrite Hrun. cbn. rewrite Hgrab. cbn. rewrite <- app_assoc. reflexivity.
Qed.

Lemma update_frame_retrieve_failed w d1 d2 m :
  is_running (app w) = true ->
  vc_grab (cap (app w)) = (true, d1) ->
  vc_retrieve (frame (app w)) d1 = (false, m, d2) ->
  update_frame w =
    Done tt {| app := set_is_running false (set_frame m (set_cap d2 (set_cap d1 (app w))));
               heap := heap w;
               trace := trace w ++ [EvCapGrab true; EvCapRetrieve false;
                          EvAlert "摄像头错误" "无法解码视频帧，程序将退出"] |}.
Proof.
  intros Hrun Hgrab Hret. unfold update_frame. run.
  rewrite Hrun. cbn. rewrite Hgrab. cbn. rewrite Hret. cbn.
  rewrite <- !app_assoc. reflexivity.
Qed.

(** ** Matrices *)

Lemma swap_channels_involutive p : swap_channels (swap_channels p) = p.
Proof. destruct p; reflexivity. Qed.

Lemma cvtColor_shape src code dst :
  cvtColor src code = Some dst ->
  rows dst = rows src /\ cols dst = cols src
  /\ data dst = List.map swap_channels (data src) /\ Mat_empty src = false.
Proof.
  unfold cvtColor. destruct (Mat_empty src); [discriminate|].
  intros [= <-]. auto.
Qed.

Lemma cvtColor_nonempty src code :
  Mat_empty src = false -> exists dst, cvtColor src code = Some dst.
Proof. unfold cvtColor. intros ->. eauto. Qed.

Lemma cvtColor_round_trip src rgb :
  cvtColor src COLOR_BGR2RGB = Some rgb -> cvtColor rgb COLOR_RGB2BGR = Some src.
Proof.
  unfold cvtColor. destruct (Mat_empty src) eqn:He; [discriminate|].
  intros [= <-]. unfold Mat_empty in *. cbn. rewrite He. f_equal.
  destruct src as [r c px]. cbn. f_equal.
  rewrite List.map_map. rewrite <- (List.map_id px) at 2.
  apply List.map_ext. apply swap_channels_involutive.
Qed.

Lemma Mat_create_shape fill r c m :
  rows (Mat_create fill r c m) = r /\ cols (Mat_create fill r c m) = c.
Proof.
  unfold Mat_create.
  destruct (rows m =? r) eqn:Hr; destruct (cols m =? c) eqn:Hc;
    destruct (Mat_empty m); cbn; auto.
  apply Z.eqb_eq in Hr, Hc. auto.
Qed.

Lemma Mat_create_nonempty fill r c m :
  r <> 0 -> c <> 0 -> Mat_empty (Mat_create fill r c m) = false.
Proof.
  intros Hr Hc. destruct (Mat_create_shape fill r c m) as [Er Ec].
  unfold Mat_empty. rewrite Er, Ec.
  apply Z.eqb_neq in Hr, Hc. rewrite Hr, Hc. reflexivity.
Qed.

(** ** What each callback can change *)

Ltac split_matches :=
  repeat (cbn;
    match goal with
    | |- context [match ?x with _ => _ end] =>
        lazymatch x with
        | context [match _ with _ => _ end] => fail
        | _ => destruct x eqn:?
        end
    end).

Lemma extends_refl (t : list Event) : t = (t ++ [])%list.
Proof. symmetry. apply app_nil_r. Qed.

Lemma update_frame_effect w :
  let w' := final (update_frame w) in
  same_negotiation w w'
  /\ window (app w') = window (app w)
  /\ (is_running (app w') = true -> is_running (app w) = true)
  /\ (cached_frame (app w') = cached_frame (app w)
      \/ rows (cached_frame (app w')) = optimal_height (app w)
         /\ cols (cached_frame (app w')) = optimal_width (app w))
  /\ exists t, trace w' = (trace w ++ t)%list /\ no_file_writes t
       /\ resizes_only_to (optimal_width (app w)) (optimal_height (app w)) t.
Proof.
  unfold update_frame. run.
  unfold same_negotiation, no_file_writes, resizes_only_to.
  split_matches; cbn;
    repeat match goal with
    | |- _ /\ _ => split
    | |- _ = _ => reflexivity
    | |- _ -> _ => intro
    end; try congruence; auto.
  all: try (rewrite <- ?app_assoc; cbn; eexists; split; [reflexivity|];
            repeat constructor).
  all: try (eexists; split; [apply extends_refl | split; constructor]).
  all: right;
    match goal with
    | Hr : resize _ _ _ = Some ?r, Hc : cvtColor _ _ = Some ?c |- _ =>
        apply resize_size in Hr; apply cvtColor_shape in Hc;
        destruct Hr as [? ?]; destruct Hc as (? & ? & _); split; congruence
    end.
Qed.

Lemma screenshot_callback_effect now_time write_ok w :
  let w' := final (screenshot_callback now_time write_ok w) in
  app w' = app w /\ heap w' = heap w
  /\ exists t, trace w' = (trace w ++ t)%list /\ no_pump_events t.
Proof.
  unfold screenshot_callback. run. unfold no_pump_events.
  split_matches; cbn; (split; [reflexivity|split; [reflexivity|]]).
  all: rewrite <- ?app_assoc; cbn; eexists; split; [reflexivity|];
       repeat constructor.
Qed.

Lemma window_close_callback_effect w :
  let w' := final (window_close_callback w) in
  same_negotiation w w' /\ same_buffers w w'
  /\ is_running (app w') = false
  /\ exists t, trace w' = (trace w ++ t)%list
       /\ no_pump_events t /\ no_file_writes t.
Proof.
  unfold window_close_callback. run.
  unfold same_negotiation, same_buffers, no_pump_events, no_file_writes.
  split_matches; cbn;
    repeat match goal with
    | |- _ /\ _ => split
    | |- _ = _ => reflexivity
    end.
  all: rewrite <- ?app_assoc; cbn; eexists; split; [reflexivity|];
       split; repeat constructor.
Qed.

(** ** Runs of the event loop *)

Lemma Fl_run_cons e evs w :
  Fl_run (e :: evs) w =
    match dispatch e w with
    | Done _ w1 => Fl_run evs w1
    | Stuck f w1 => Stuck f w1
    end.
Proof. reflexivity. Qed.

Lemma stays_stopped_refl w : is_running (app w) = false -> stays_stopped w w.
Proof.
  intros Hs. unfold stays_stopped, same_buffers, same_negotiation.
  repeat split; auto. exists []. split; [apply extends_refl | constructor].
Qed.

Lemma stays_stopped_trans w1 w2 w3 :
  stays_stopped w1 w2 -> stays_stopped w2 w3 -> stays_stopped w1 w3.
Proof.
  unfold stays_stopped, same_buffers, same_negotiation.
  intros (_ & (A1 & A2 & A3) & (B1 & B2 & B3) & t1 & T1 & P1)
         (S & (C1 & C2 & C3) & (D1 & D2 & D3) & t2 & T2 & P2).
  repeat split; try congruence.
  exists (t1 ++ t2)%list. split.
  - rewrite T2, T1, app_assoc. reflexivity.
  - apply Forall_app. split; assumption.
Qed.

Lemma dispatch_stays_stopped e w :
  is_running (app w) = false -> stays_stopped w (final (dispatch e w)).
Proof.
  intros Hs. destruct e as [|now_time write_ok|]; cbn [dispatch].
  - rewrite (update_frame_stopped w Hs). apply stays_stopped_refl, Hs.
  - destruct (screenshot_callback_effect now_time write_ok w) as (Ea & _ & t & Et & Pt).
    unfold stays_stopped, same_buffers, same_negotiation.
    rewrite Ea. repeat split; auto. exists t. split; assumption.
  - destruct (window_close_callback_effect w) as (N & B & R & t & Et & Pt & _).
    unfold stays_stopped. repeat split; try apply N; try apply B; auto.
    exists t. split; assumption.
Qed.

Lemma Fl_run_stays_stopped evs : forall w,
  is_running (app w) = false -> stays_stopped w (final (Fl_run evs w)).
Proof.
  induction evs as [|e evs IH]; intros w Hs.
  - cbn. apply stays_stopped_refl, Hs.
  - rewrite Fl_run_cons.
    pose proof (dispatch_stays_stopped e w Hs) as Hd.
    destruct (dispatch e w) as [[] w1|f w1]; cbn [final] in *.
    + eapply stays_stopped_trans; [exact Hd|]. apply IH. apply Hd.
    + exact Hd.
Qed.

Lemma Fl_run_stopped_without_close evs : forall w,
  is_running (app w) = false -> ~ In CloseRequested evs ->
  let w' := final (Fl_run evs w) in
  app w' = app w /\ heap w' = heap w.
Proof.
  induction evs as [|e evs IH]; intros w Hs Hno.
  - cbn. auto.
  - rewrite Fl_run_cons. destruct e as [|now_time write_ok|]; cbn [dispatch].
    + rewrite (update_frame_stopped w Hs). apply IH; [exact Hs|].
      intros Hin. apply Hno. right. exact Hin.
    + destruct (screenshot_callback_effect now_time write_ok w) as (Ea & Eh & _).
      destruct (screenshot_callback now_time write_ok w) as [[] w1|f w1];
        cbn [final] in *.
      * destruct (IH w1) as [Ea' Eh'].
        -- rewrite Ea. exact Hs.
        -- intros Hin. apply Hno. right. exact Hin.
        -- cbn in Ea', Eh'. split; congruence.
      * auto.
    + exfalso. apply Hno. left. reflexivity.
Qed.

(** C9.  Once [is_running] is false it stays false whatever the event loop
    delivers afterwards: a timer callback returns the world it was given
    (device, buffers, image object, trace and so the timer all untouched), the
    buffers and the negotiated values never change again, no call of the frame
    pump (grab, retrieve, resize, copy, redraw, timer arming) is ever made
    again, and as long as no close request is delivered the application
    structure, and with it the window and the device, is exactly as it was. *)
Theorem stopped_flag_is_permanent (evs : list GuiEvent) w :
  is_running (app w) = false ->
  update_frame w = Done tt w
  /\ stays_stopped w (final (Fl_run evs w))
  /\ update_frame (final (Fl_run evs w)) = Done tt (final (Fl_run evs w))
  /\ (~ In CloseRequested evs ->
      app (final (Fl_run evs w)) = app w /\ heap (final (Fl_run evs w)) = heap w).
Proof.
  intros Hs.
  pose proof (Fl_run_stays_stopped evs w Hs) as Hq.
  split; [apply update_frame_stopped, Hs|].
  split; [exact Hq|].
  split; [apply update_frame_stopped, Hq|].
  intros Hno. apply (Fl_run_stopped_without_close evs w Hs Hno).
Qed.

(** ** Failed ticks *)

(** C6.  A tick whose latch ([grab]) fails makes exactly two calls, the latch
    and the alert: no decode is attempted, no timer is armed.  It leaves
    [is_running] false and the buffers as they were, and nothing the event
    loop delivers afterwards pumps a frame or arms the timer again. *)
Theorem latch_failure_stops_the_pump w d :
  is_running (app w) = true ->
  vc_grab (cap (app w)) = (false, d) ->
  exists w',
    update_frame w = Done tt w'
    /\ is_running (app w') = false
    /\ trace w' = (trace w ++ [EvCapGrab false;
                     EvAlert "摄像头错误" "无法捕获视频帧，程序将退出"])%list
    /\ same_buffers w w'
    /\ forall evs, stays_stopped w' (final (Fl_run evs w')).
Proof.
  intros Hrun Hgrab. eexists. split.
  - apply (update_frame_grab_failed w d Hrun Hgrab).
  - cbn. split; [reflexivity|]. split; [reflexivity|].
    split; [repeat split|].
    intros evs. apply Fl_run_stays_stopped. reflexivity.
Qed.

(** C5.  A tick whose latch succeeds and whose decode ([retrieve]) fails makes
    exactly three calls, the latch, the decode and the alert: no resize, no
    colour conversion, no copy, no image object, no repaint, no timer.  It
    leaves [is_running] false, and the display buffer, the converted buffer,
    the image object, the display box and the heap are what they were. *)
Theorem decode_failure_keeps_display_buffer w d1 d2 m :
  is_running (app w) = true ->
  vc_grab (cap (app w)) = (true, d1) ->
  vc_retrieve (frame (app w)) d1 = (false, m, d2) ->
  exists w',
    update_frame w = Done tt w'
    /\ is_running (app w') = false
    /\ cached_frame (app w') = cached_frame (app w)
    /\ frame_rgb (app w') = frame_rgb (app w)
    /\ fltk_img (app w') = fltk_img (app w)
    /\ display_box (app w') = display_box (app w)
    /\ heap w' = heap w
    /\ trace w' = (trace w ++ [EvCapGrab true; EvCapRetrieve false;
                     EvAlert "摄像头错误" "无法解码视频帧，程序将退出"])%list.
Proof.
  intros Hrun Hgrab Hret. eexists. split.
  - apply (update_frame_retrieve_failed w d1 d2 m Hrun Hgrab Hret).
  - cbn. repeat split.
Qed.

(** ** The size of the display buffer *)

Lemma no_pump_events_resizes ow oh t :
  no_pump_events t -> resizes_only_to ow oh t.
Proof.
  intros Ht. eapply Forall_impl; [exact Ht|].
  intros [] He; cbn in *; try exact I. discriminate.
Qed.

Lemma keeps_size_trans w1 w2 w3 :
  keeps_size w1 w2 -> keeps_size w2 w3 -> keeps_size w1 w3.
Proof.
  unfold keeps_size, same_negotiation.
  intros (_ & (A1 & A2 & A3) & t1 & T1 & R1) (D & (B1 & B2 & B3) & t2 & T2 & R2).
  split; [exact D|]. split; [repeat split; congruence|].
  exists (t1 ++ t2)%list. split.
  - rewrite T2, T1, app_assoc. reflexivity.
  - apply Forall_app. split; [exact R1|]. rewrite <- A1, <- A2. exact R2.
Qed.

Lemma dispatch_keeps_size e w :
  display_matches_optimal w -> keeps_size w (final (dispatch e w)).
Proof.
  unfold keeps_size, display_matches_optimal. intros [Hr Hc].
  destruct e as [|now_time write_ok|]; cbn [dispatch].
  - destruct (update_frame_effect w) as (N & _ & _ & Hcf & t & Et & _ & Rt).
    split; [|split; [exact N|exists t; auto]]. destruct N as (Nw & Nh & _).
    rewrite Nw, Nh. destruct Hcf as [-> | [? ?]]; auto.
  - destruct (screenshot_callback_effect now_time write_ok w) as (Ea & _ & t & Et & Pt).
    unfold same_negotiation. rewrite Ea. repeat split; auto.
    exists t. split; [exact Et|]. apply no_pump_events_resizes, Pt.
  - destruct (window_close_callback_effect w)
      as (N & (_ & _ & Bc) & _ & t & Et & Pt & _).
    split; [|split; [exact N|]].
    + destruct N as (Nw & Nh & _). rewrite Nw, Nh, Bc. auto.
    + exists t. split; [exact Et|]. apply no_pump_events_resizes, Pt.
Qed.

Lemma Fl_run_keeps_size evs : forall w,
  display_matches_optimal w -> keeps_size w (final (Fl_run evs w)).
Proof.
  induction evs as [|e evs IH]; intros w Hw.
  - cbn. unfold keeps_size, same_negotiation. repeat split; try apply Hw.
    exists []. split; [apply extends_refl | constructor].
  - rewrite Fl_run_cons.
    pose proof (dispatch_keeps_size e w Hw) as Hd.
    destruct (dispatch e w) as [[] w1|f w1]; cbn [final] in *.
    + eapply keeps_size_trans; [exact Hd|]. apply IH. apply Hd.
    + exact Hd.
Qed.

Lemma startup_allocates_negotiated_size w w0 :
  startup w = Done true w0 -> display_matches_optimal w0.
Proof.
  unfold startup.
  remember detect_resolutions as dr eqn:Edr.
  remember detect_fps as df eqn:Edf.
  run. destruct (vc_isOpened _); cbn; [|discriminate].
  destruct (dr _) as [[] w1|]; [|discriminate].
  destruct (df _) as [[] w2|]; [|discriminate].
  cbn. intros [= <-]. unfold display_matches_optimal. cbn.
  apply Mat_create_shape.
Qed.

(** C8.  When [main] reaches the event loop the display buffer has exactly
    the negotiated size, and whatever the loop delivers afterwards (ticks that
    succeed or fail, snapshots, close requests, also a run that ends in a
    fault) the buffer still has that size, the negotiated values are the ones
    fixed at startup, and every resize performed asked for exactly that
    size.  [cv::resize] enters with its contract only: the destination has
    the size that was asked for. *)
Theorem display_buffer_has_negotiated_size w w0 (evs : list GuiEvent) :
  startup w = Done true w0 ->
  display_matches_optimal w0 /\ keeps_size w0 (final (Fl_run evs w0)).
Proof.
  intros Hs. pose proof (startup_allocates_negotiated_size w w0 Hs) as Hsize.
  split; [exact Hsize|]. apply Fl_run_keeps_size, Hsize.
Qed.

(** ** Snapshots *)

Lemma string_app_empty (x : string) : x ++ "" = x.
Proof.
  induction x as [|c x IH]; [reflexivity|].
  change (String c (x ++ "") = String c x). f_equal. exact IH.
Qed.

Lemma format_s_saved (filename : string) :
  format_s ("图像已保存为:" ++ newline ++ "%s") filename
  = "图像已保存为:" ++ newline ++ filename.
Proof. cbv. repeat f_equal. apply string_app_empty. Qed.

Lemma screenshot_callback_empty now_time write_ok w :
  Mat_empty (cached_frame (app w)) = true ->
  screenshot_callback now_time write_ok w =
    Done tt {| app := app w; heap := heap w;
               trace := trace w ++ [EvAlert "截图失败" "没有可保存的图像数据"] |}.
Proof.
  intros He. unfold screenshot_callback. run. rewrite He. reflexivity.
Qed.

Lemma screenshot_callback_writes now_time write_ok w :
  Mat_empty (cached_frame (app w)) = false ->
  screenshot_callback now_time write_ok w =
    Done tt
      {| app := app w; heap := heap w;
         trace := trace w ++
           [EvCvtColor COLOR_RGB2BGR;
            EvImwrite ("screenshot_" ++ to_string now_time ++ ".png")
              {| rows := rows (cached_frame (app w));
                 cols := cols (cached_frame (app w));
                 data := List.map swap_channels (data (cached_frame (app w))) |}
              write_ok] ++
           (if write_ok
            then [EvMessageTitle "截图成功";
                  EvMessage ("图像已保存为:" ++ newline ++
                             ("screenshot_" ++ to_string now_time ++ ".png"))]
            else [EvAlert "截图失败" "无法保存图像文件"]) |}.
Proof.
  intros He. unfold screenshot_callback. run. rewrite He. cbn.
  unfold cvtColor. rewrite He. cbn.
  destruct write_ok; cbn; rewrite <- ?app_assoc; cbn.
  - rewrite format_s_saved. reflexivity.
  - reflexivity.
Qed.

(** C7.  A snapshot taken at clock reading [now_time] with a non-empty
    display buffer converts the buffer by exchanging the first and third
    channel of every pixel (so a buffer that a tick converted from a device
    frame is written as that device frame), calls [imwrite] exactly once, for
    the file screenshot_<now_time>.png, and then either shows the success
    message ending in that file name (write succeeded) or the failure alert
    (write failed); nothing else is called and the state is unchanged. *)
Theorem snapshot_writes_one_timestamped_file now_time write_ok w :
  Mat_empty (cached_frame (app w)) = false ->
  exists bgr,
    cvtColor (cached_frame (app w)) COLOR_RGB2BGR = Some bgr
    /\ data bgr = List.map swap_channels (data (cached_frame (app w)))
    /\ (forall src, cvtColor src COLOR_BGR2RGB = Some (cached_frame (app w)) ->
        bgr = src)
    /\ screenshot_callback now_time write_ok w =
        Done tt
          {| app := app w; heap := heap w;
             trace := trace w ++
               [EvCvtColor COLOR_RGB2BGR;
                EvImwrite ("screenshot_" ++ to_string now_time ++ ".png")
                  bgr write_ok] ++
               (if write_ok
                then [EvMessageTitle "截图成功";
                      EvMessage ("图像已保存为:" ++ newline ++
                                 ("screenshot_" ++ to_string now_time ++ ".png"))]
                else [EvAlert "截图失败" "无法保存图像文件"]) |}.
Proof.
  intros He.
  destruct (cvtColor_nonempty _ COLOR_RGB2BGR He) as [bgr Hb].
  exists bgr. split; [exact Hb|].
  pose proof Hb as Hshape. apply cvtColor_shape in Hshape.
  destruct Hshape as (_ & _ & Hd & _).
  split; [exact Hd|]. split.
  - intros src Hsrc. apply cvtColor_round_trip in Hsrc. congruence.
  - rewrite (screenshot_callback_writes now_time write_ok w He).
    unfold cvtColor in Hb. rewrite He in Hb. injection Hb as <-. reflexivity.
Qed.

(** ** Negotiation *)

Lemma requests_app (t1 t2 : list Event) :
  requests (t1 ++ t2) = (requests t1 ++ requests t2)%list.
Proof.
  induction t1 as [|e t1 IH]; [reflexivity|].
  destruct e; cbn; rewrite ?IH; reflexivity.
Qed.

Lemma detect_fps_from_accepts pre : forall fps post w,
  fps_all_rejected pre (cap (app w)) = true ->
  Double.within_one (fst (ask_fps fps (after_fps pre (cap (app w))))) fps = true ->
  exists w',
    detect_fps_from (pre ++ fps :: post) w = Done tt w'
    /\ app w' = set_optimal_fps (fst (ask_fps fps (after_fps pre (cap (app w)))))
                  (set_cap (snd (ask_fps fps (after_fps pre (cap (app w))))) (app w))
    /\ heap w' = heap w
    /\ requests (trace w') = (requests (trace w) ++ fps_requests (pre ++ [fps]))%list.
Proof.
  induction pre as [|c pre IH]; intros fps post w Hrej Hok.
  - cbn in *. unfold ask_fps in *. run.
    destruct (vc_get _ _) as [a d1]. cbn in *. rewrite Hok. cbn.
    eexists. split; [reflexivity|]. cbn. repeat split.
    rewrite !requests_app. cbn. rewrite <- app_assoc. reflexivity.
  - cbn [fps_all_rejected after_fps] in *.
    apply andb_prop in Hrej. destruct Hrej as [Hc Hrej].
    apply negb_true_iff in Hc.
    cbn -[detect_fps_from]. unfold ask_fps in *. cbn. run.
    destruct (vc_get _ _) as [a d1] eqn:Hget. cbn in *. rewrite Hc. cbn.
    match goal with |- context [detect_fps_from _ ?w1] =>
      destruct (IH fps post w1) as (w' & Hrun & Ha & Hh & Hr) end.
    + exact Hrej.
    + exact Hok.
    + exists w'. split; [exact Hrun|]. cbn in *. split; [exact Ha|].
      split; [exact Hh|]. rewrite Hr, !requests_app. cbn.
      rewrite <- !app_assoc. reflexivity.
Qed.

Lemma detect_fps_from_falls_back l : forall w,
  fps_all_rejected l (cap (app w)) = true ->
  exists w',
    detect_fps_from l w = Done tt w'
    /\ app w' = set_optimal_fps
                  (fst (vc_get CAP_PROP_FPS (after_fps l (cap (app w)))))
                  (set_cap (snd (vc_get CAP_PROP_FPS (after_fps l (cap (app w)))))
                     (app w))
    /\ heap w' = heap w
    /\ requests (trace w') = (requests (trace w) ++ fps_requests l)%list.
Proof.
  induction l as [|c l IH]; intros w Hrej.
  - cbn. run. destruct (vc_get _ _) as [a d1]. cbn.
    eexists. split; [reflexivity|]. cbn. repeat split.
    rewrite !requests_app. cbn. rewrite !app_nil_r. reflexivity.
  - cbn [fps_all_rejected after_fps] in *.
    apply andb_prop in Hrej. destruct Hrej as [Hc Hrej].
    apply negb_true_iff in Hc.
    unfold ask_fps in *. cbn. run.
    destruct (vc_get _ (vc_set _ _ _)) as [a d1] eqn:Hget. cbn in *.
    rewrite Hc. cbn.
    match goal with |- context [detect_fps_from _ ?w1] =>
      destruct (IH w1) as (w' & Hrun & Ha & Hh & Hr) end.
    + exact Hrej.
    + exists w'. split; [exact Hrun|]. cbn in *. split; [exact Ha|].
      split; [exact Hh|]. rewrite Hr, !requests_app. cbn.
      rewrite <- !app_assoc. reflexivity.
Qed.

(** C4.  The candidate rates are strictly descending, and [detect_fps]
    requests them in that order.  If the answers to the candidates in [pre]
    are all outside the tolerance and the answer to the next candidate [fps]
    is within one unit of it, then [optimal_fps] becomes that answer and no
    later candidate is requested.  If every candidate is answered outside the
    tolerance, all of them have been requested and [optimal_fps] becomes what
    the driver reports when read once more.  Nothing but [app.cap] and
    [optimal_fps] changes. *)
Theorem fps_probe_accepts_first_within_one w :
  descending fps_candidates = true
  /\ (forall pre fps post,
        fps_candidates = (pre ++ fps :: post)%list ->
        fps_all_rejected pre (cap (app w)) = true ->
        Double.within_one (fst (ask_fps fps (after_fps pre (cap (app w))))) fps
          = true ->
        exists w',
          detect_fps w = Done tt w'
          /\ optimal_fps (app w') = fst (ask_fps fps (after_fps pre (cap (app w))))
          /\ app w' = set_optimal_fps (optimal_fps (app w'))
                        (set_cap (snd (ask_fps fps (after_fps pre (cap (app w)))))
                           (app w))
          /\ heap w' = heap w
          /\ requests (trace w')
             = (requests (trace w) ++ fps_requests (pre ++ [fps]))%list)
  /\ (fps_all_rejected fps_candidates (cap (app w)) = true ->
      exists w',
        detect_fps w = Done tt w'
        /\ optimal_fps (app w')
           = fst (vc_get CAP_PROP_FPS (after_fps fps_candidates (cap (app w))))
        /\ app w' = set_optimal_fps (optimal_fps (app w'))
                      (set_cap (snd (vc_get CAP_PROP_FPS
                                       (after_fps fps_candidates (cap (app w)))))
                         (app w))
        /\ heap w' = heap w
        /\ requests (trace w')
           = (requests (trace w) ++ fps_requests fps_candidates)%list).
Proof.
  split; [vm_compute; reflexivity|]. split.
  - intros pre fps post Hl Hrej Hok. unfold detect_fps. rewrite Hl.
    destruct (detect_fps_from_accepts pre fps post w Hrej Hok)
      as (w' & Hrun & Ha & Hh & Hr).
    exists w'. rewrite Ha. cbn. auto.
  - intros Hrej. unfold detect_fps.
    destruct (detect_fps_from_falls_back fps_candidates w Hrej)
      as (w' & Hrun & Ha & Hh & Hr).
    exists w'. rewrite Ha. cbn. auto.
Qed.

Lemma detect_resolutions_step res rest w a1 a2 d4 z1 z2 :
  ask_resolution res (cap (app w)) = (a1, a2, d4) ->
  Double.to_int a1 = Some z1 ->
  Double.to_int a2 = Some z2 ->
  detect_resolutions_from (res :: rest) w =
    let w1 := {| app := set_cap d4 (app w); heap := heap w;
                 trace := trace w ++
                   [EvCapSet CAP_PROP_FRAME_WIDTH (Double.of_int (fst res));
                    EvCapSet CAP_PROP_FRAME_HEIGHT (Double.of_int (snd res));
                    EvCapGet CAP_PROP_FRAME_WIDTH a1;
                    EvCapGet CAP_PROP_FRAME_HEIGHT a2] |} in
    if (z1 =? fst res) && (z2 =? snd res)
    then Done tt {| app := set_optimal_size z1 z2 (app w1);
                    heap := heap w1; trace := trace w1 |}
    else detect_resolutions_from rest w1.
Proof.
  unfold ask_resolution. intros Hask H1 H2.
  destruct (vc_get CAP_PROP_FRAME_WIDTH _) as [x1 d3] eqn:E1.
  destruct (vc_get CAP_PROP_FRAME_HEIGHT _) as [x2 d4'] eqn:E2.
  injection Hask as -> -> ->.
  cbn. run. rewrite E1. cbn. rewrite H1. cbn. rewrite E2. cbn. rewrite H2. cbn.
  rewrite <- !app_assoc. cbn. destruct (_ && _); reflexivity.
Qed.

Lemma answered_size_inv res d z1 z2 :
  answered_size res d = (Some z1, Some z2) ->
  exists a1 a2 d4,
    ask_resolution res d = (a1, a2, d4)
    /\ Double.to_int a1 = Some z1 /\ Double.to_int a2 = Some z2.
Proof.
  unfold answered_size. destruct (ask_resolution res d) as [[a1 a2] d4].
  intros [= E1 E2]. exists a1, a2, d4. auto.
Qed.

Lemma detect_resolutions_from_accepts pre : forall res post w,
  resolutions_all_rejected pre (cap (app w)) = true ->
  answered_size res (after_resolutions pre (cap (app w)))
    = (Some (fst res), Some (snd res)) ->
  exists w',
    detect_resolutions_from (pre ++ res :: post) w = Done tt w'
    /\ app w' = set_optimal_size (fst res) (snd res)
                  (set_cap (snd (ask_resolution res
                                   (after_resolutions pre (cap (app w)))))
                     (app w))
    /\ heap w' = heap w
    /\ requests (trace w')
       = (requests (trace w) ++ all_size_requests (pre ++ [res]))%list.
Proof.
  induction pre as [|c pre IH]; intros res post w Hrej Hok.
  - cbn [after_resolutions] in Hok.
    destruct (answered_size_inv _ _ _ _ Hok) as (a1 & a2 & d4 & Hask & H1 & H2).
    cbn [List.app].
    rewrite (detect_resolutions_step res post w a1 a2 d4 _ _ Hask H1 H2).
    cbn. rewrite !Z.eqb_refl. cbn. eexists. split; [reflexivity|].
    cbn. rewrite Hask. repeat split.
    rewrite requests_app. reflexivity.
  - cbn [resolutions_all_rejected after_resolutions] in *.
    destruct (answered_size c (cap (app w))) as [[z1|] [z2|]] eqn:Hc;
      try discriminate.
    apply andb_prop in Hrej. destruct Hrej as [Hne Hrej].
    apply negb_true_iff in Hne.
    destruct (answered_size_inv _ _ _ _ Hc) as (a1 & a2 & d4 & Hask & H1 & H2).
    rewrite Hask in *. cbn [snd] in *.
    change ((c :: pre) ++ res :: post)%list with (c :: (pre ++ res :: post))%list.
    rewrite (detect_resolutions_step c _ w a1 a2 d4 _ _ Hask H1 H2).
    cbn zeta. rewrite Hne.
    match goal with |- context [detect_resolutions_from _ ?w1] =>
      destruct (IH res post w1) as (w' & Hrun & Ha & Hh & Hr) end.
    + exact Hrej.
    + exact Hok.
    + exists w'. split; [exact Hrun|]. cbn in *. split; [exact Ha|].
      split; [exact Hh|]. rewrite Hr, requests_app. cbn.
      rewrite <- app_assoc. reflexivity.
Qed.

Lemma detect_resolutions_from_keeps_default l : forall w,
  resolutions_all_rejected l (cap (app w)) = true ->
  exists w',
    detect_resolutions_from l w = Done tt w'
    /\ app w' = set_cap (after_resolutions l (cap (app w))) (app w)
    /\ heap w' = heap w
    /\ requests (trace w') = (requests (trace w) ++ all_size_requests l)%list.
Proof.
  induction l as [|c l IH]; intros w Hrej.
  - cbn. exists w. repeat split.
    + destruct w as [[] ? ?]; reflexivity.
    + rewrite app_nil_r. reflexivity.
  - cbn [resolutions_all_rejected after_resolutions] in *.
    destruct (answered_size c (cap (app w))) as [[z1|] [z2|]] eqn:Hc;
      try discriminate.
    apply andb_prop in Hrej. destruct Hrej as [Hne Hrej].
    apply negb_true_iff in Hne.
    destruct (answered_size_inv _ _ _ _ Hc) as (a1 & a2 & d4 & Hask & H1 & H2).
    rewrite Hask in *. cbn [snd] in *.
    rewrite (detect_resolutions_step c _ w a1 a2 d4 _ _ Hask H1 H2).
    cbn zeta. rewrite Hne.
    match goal with |- context [detect_resolutions_from _ ?w1] =>
      destruct (IH w1) as (w' & Hrun & Ha & Hh & Hr) end.
    + exact Hrej.
    + exists w'. split; [exact Hrun|]. cbn in *. split; [exact Ha|].
      split; [exact Hh|]. rewrite Hr, requests_app. cbn.
      rewrite <- app_assoc. reflexivity.
Qed.

(** C1, as the code has it.  The candidate widths never increase along the
    list, and [detect_resolutions] requests the candidates in list order.  If
    the answers to the candidates in [pre] all convert to [int] and differ
    from the request, and the answer to the next candidate [res] is exactly
    [res], then the optimal size becomes [res] and no later candidate is
    requested.  If every candidate is answered with a different size, all of
    them have been requested, the driver is left as the last request put it,
    and the optimal size is not assigned: it keeps the value it had, which at
    startup is the initial 640 x 480. *)
Theorem resolution_probe_accepts_first_exact_match w :
  widths_descending resolutions = true
  /\ (forall pre res post,
        resolutions = (pre ++ res :: post)%list ->
        resolutions_all_rejected pre (cap (app w)) = true ->
        answered_size res (after_resolutions pre (cap (app w)))
          = (Some (fst res), Some (snd res)) ->
        exists w',
          detect_resolutions w = Done tt w'
          /\ optimal_width (app w') = fst res
          /\ optimal_height (app w') = snd res
          /\ app w' = set_optimal_size (fst res) (snd res)
                        (set_cap (snd (ask_resolution res
                                         (after_resolutions pre (cap (app w)))))
                           (app w))
          /\ heap w' = heap w
          /\ requests (trace w')
             = (requests (trace w) ++ all_size_requests (pre ++ [res]))%list)
  /\ (resolutions_all_rejected resolutions (cap (app w)) = true ->
      exists w',
        detect_resolutions w = Done tt w'
        /\ optimal_width (app w') = optimal_width (app w)
        /\ optimal_height (app w') = optimal_height (app w)
        /\ app w' = set_cap (after_resolutions resolutions (cap (app w))) (app w)
        /\ heap w' = heap w
        /\ requests (trace w')
           = (requests (trace w) ++ all_size_requests resolutions)%list)
  /\ (forall d, optimal_width (app_init d) = 640
               /\ optimal_height (app_init d) = 480
               /\ last resolutions = Some (640, 480)).
Proof.
  split; [vm_compute; reflexivity|]. split; [|split].
  - intros pre res post Hl Hrej Hok. unfold detect_resolutions. rewrite Hl.
    destruct (detect_resolutions_from_accepts pre res post w Hrej Hok)
      as (w' & Hrun & Ha & Hh & Hr).
    exists w'. rewrite Ha. cbn. auto 7.
  - intros Hrej. unfold detect_resolutions.
    destruct (detect_resolutions_from_keeps_default resolutions w Hrej)
      as (w' & Hrun & Ha & Hh & Hr).
    exists w'. rewrite Ha. cbn. auto 7.
  - intros d. cbn. auto.
Qed.

(** At a read-back that does not convert to [int] the model stops, with the
    optimal size as it was. *)
Lemma detect_resolutions_from_overflow pre : forall res post w,
  resolutions_all_rejected pre (cap (app w)) = true ->
  (fst (answered_size res (after_resolutions pre (cap (app w)))) = None
   \/ snd (answered_size res (after_resolutions pre (cap (app w)))) = None) ->
  exists f w',
    detect_resolutions_from (pre ++ res :: post) w = Stuck (IntCastOverflow f) w'
    /\ optimal_width (app w') = optimal_width (app w)
    /\ optimal_height (app w') = optimal_height (app w).
Proof.
  induction pre as [|c pre IH]; intros res post w Hrej Hbad.
  - cbn [after_resolutions] in Hbad. unfold answered_size, ask_resolution in Hbad.
    cbn. run.
    destruct (vc_get CAP_PROP_FRAME_WIDTH _) as [a1 d3]. cbn in *.
    destruct (vc_get CAP_PROP_FRAME_HEIGHT d3) as [a2 d4] eqn:E2. cbn in *.
    destruct (Double.to_int a1) as [z1|] eqn:E1; cbn.
    + rewrite E2. cbn. destruct Hbad as [Hbad|Hbad]; [discriminate|].
      rewrite Hbad. cbn. eexists. eexists. split; [reflexivity|]. cbn. auto.
    + eexists. eexists. split; [reflexivity|]. cbn. auto.
  - cbn [resolutions_all_rejected after_resolutions] in *.
    destruct (answered_size c (cap (app w))) as [[z1|] [z2|]] eqn:Hc;
      try discriminate.
    apply andb_prop in Hrej. destruct Hrej as [Hne Hrej].
    apply negb_true_iff in Hne.
    destruct (answered_size_inv _ _ _ _ Hc) as (a1 & a2 & d4 & Hask & H1 & H2).
    rewrite Hask in *. cbn [snd] in *.
    change ((c :: pre) ++ res :: post)%list with (c :: (pre ++ res :: post))%list.
    rewrite (detect_resolutions_step c _ w a1 a2 d4 _ _ Hask H1 H2).
    cbn zeta. rewrite Hne.
    match goal with |- context [detect_resolutions_from _ ?w1] =>
      destruct (IH res post w1 Hrej Hbad) as (f & w' & Hrun & Hw & Hh) end.
    exists f, w'. split; [exact Hrun|]. cbn in *. auto.
Qed.

(** The three ways a probe over [l] can go: every candidate is rejected, or
    after a rejected prefix a candidate is matched exactly, or after a
    rejected prefix a read-back does not convert to [int]. *)
Lemma resolution_probe_cases l : forall d,
  resolutions_all_rejected l d = true
  \/ exists pre res post,
       l = (pre ++ res :: post)%list
       /\ resolutions_all_rejected pre d = true
       /\ (answered_size res (after_resolutions pre d)
             = (Some (fst res), Some (snd res))
           \/ fst (answered_size res (after_resolutions pre d)) = None
           \/ snd (answered_size res (after_resolutions pre d)) = None).
Proof.
  induction l as [|c l IH]; intros d; [left; reflexivity|].
  cbn [resolutions_all_rejected].
  destruct (answered_size c d) as [[z1|] [z2|]] eqn:Hc.
  - destruct ((z1 =? fst c) && (z2 =? snd c)) eqn:Hm.
    + right. exists [], c, l. cbn. repeat split. left.
      apply andb_prop in Hm. destruct Hm as [E1 E2].
      apply Z.eqb_eq in E1, E2. subst. exact Hc.
    + destruct (IH (snd (ask_resolution c d)))
        as [Hall|(pre & res & post & -> & Hrej & Hcase)].
      * left. cbn. exact Hall.
      * right. exists (c :: pre), res, post. cbn.
        rewrite Hc, Hm. cbn. auto.
  - right. exists [], c, l. cbn. rewrite Hc. cbn. auto.
  - right. exists [], c, l. cbn. rewrite Hc. cbn. auto.
  - right. exists [], c, l. cbn. rewrite Hc. cbn. auto.
Qed.

(** The negotiated size is one of the candidates or the value it had. *)
Lemma detect_resolutions_from_size l : forall w w',
  detect_resolutions_from l w = Done tt w' ->
  (optimal_width (app w') = optimal_width (app w)
   /\ optimal_height (app w') = optimal_height (app w))
  \/ In (optimal_width (app w'), optimal_height (app w')) l.
Proof.
  induction l as [|res l IH]; intros w w'.
  - cbn. run. intros [= <-]. auto.
  - cbn. run.
    destruct (vc_get _ _) as [a1 d3]. cbn.
    destruct (Double.to_int a1) as [z1|]; cbn; [|discriminate].
    destruct (vc_get _ _) as [a2 d4]. cbn.
    destruct (Double.to_int a2) as [z2|]; cbn; [|discriminate].
    destruct ((z1 =? fst res) && (z2 =? snd res)) eqn:Hm.
    + intros [= <-]. cbn. right. left.
      apply andb_prop in Hm. destruct Hm as [E1 E2].
      apply Z.eqb_eq in E1, E2. subst. destruct res; reflexivity.
    + intros Hrun. apply IH in Hrun. cbn in Hrun.
      destruct Hrun as [?|?]; [left|right; right]; assumption.
Qed.

Lemma detect_fps_from_size l : forall w w',
  detect_fps_from l w = Done tt w' ->
  optimal_width (app w') = optimal_width (app w)
  /\ optimal_height (app w') = optimal_height (app w).
Proof.
  induction l as [|fps l IH]; intros w w'.
  - cbn. run. destruct (vc_get _ _) as [a d1]. cbn. intros [= <-]. auto.
  - cbn. run. destruct (vc_get _ _) as [a d1]. cbn.
    destruct (Double.within_one a fps).
    + intros [= <-]. auto.
    + intros Hrun. apply IH in Hrun. exact Hrun.
Qed.

Lemma resolutions_positive (x y : Z) :
  In (x, y) resolutions -> 0 < x /\ 0 < y.
Proof.
  cbn. intros Hin.
  repeat (destruct Hin as [[= <- <-]|Hin]; [lia|]). contradiction.
Qed.

Lemma startup_negotiates_positive_size w w0 :
  startup w = Done true w0 ->
  0 < optimal_width (app w) -> 0 < optimal_height (app w) ->
  0 < optimal_width (app w0) /\ 0 < optimal_height (app w0).
Proof.
  unfold startup.
  remember detect_resolutions as dr eqn:Edr.
  remember detect_fps as df eqn:Edf.
  run. destruct (vc_isOpened _); cbn; [|discriminate].
  destruct (dr _) as [[] w1|] eqn:Hdr; [|discriminate].
  destruct (df _) as [[] w2|] eqn:Hdf; [|discriminate].
  cbn. intros [= <-] Hw Hh. cbn.
  subst dr df. apply detect_fps_from_size in Hdf. destruct Hdf as [-> ->].
  apply detect_resolutions_from_size in Hdr. cbn in Hdr.
  destruct Hdr as [[-> ->]|Hin]; [auto|].
  apply resolutions_positive in Hin. exact Hin.
Qed.

(** ** Successful ticks *)

Lemma update_frame_pumps w d1 d2 m r :
  is_running (app w) = true ->
  vc_grab (cap (app w)) = (true, d1) ->
  vc_retrieve (frame (app w)) d1 = (true, m, d2) ->
  resize m (optimal_width (app w)) (optimal_height (app w)) = Some r ->
  Mat_empty r = false ->
  widgets_ready w ->
  exists w' p,
    update_frame w = Done tt w'
    /\ trace w' =
        (trace w ++
         [EvCapGrab true; EvCapRetrieve true;
          EvResize (optimal_width (app w)) (optimal_height (app w));
          EvCvtColor COLOR_BGR2RGB; EvCopyTo] ++
         match fltk_img (app w) with
         | Some q => [EvBoxImage None; EvDeleteImage q]
         | None => []
         end ++
         [EvNewImage p; EvBoxImage (Some p); EvBoxRedraw; EvWindowRedraw;
          EvFlush; EvRepeatTimeout (1 / optimal_fps (app w))%float])%list
    /\ is_running (app w') = true
    /\ optimal_fps (app w') = optimal_fps (app w)
    /\ cvtColor r COLOR_BGR2RGB = Some (cached_frame (app w'))
    /\ fltk_img (app w') = Some p
    /\ widgets_ready w'.
Proof.
  intros Hrun Hgrab Hret Hres Hne (Hbox & Hwin & Hlive).
  destruct (display_box (app w)) as [b|] eqn:Eb; [|congruence].
  destruct (window (app w)) as [v|] eqn:Ev; [|congruence].
  unfold update_frame. run.
  rewrite Hrun. cbn. rewrite Hgrab. cbn. rewrite Hret. cbn.
  rewrite Hres. cbn. unfold cvtColor. rewrite Hne. cbn.
  destruct (fltk_img (app w)) as [q|] eqn:Eq; cbn.
  - rewrite Eb. cbn. destruct (heap w !! q) as [img|] eqn:Eh;
      [|exfalso; apply (Hlive q); auto].
    cbn. rewrite Ev. cbn.
    eexists. eexists. split; [reflexivity|]. cbn.
    rewrite <- !app_assoc. cbn. do 5 (split; [first [reflexivity|assumption]|]).
    unfold widgets_ready. cbn. split; [congruence|]. split; [congruence|].
    intros p [= <-]. rewrite lookup_insert_eq. discriminate.
  - rewrite Eb. cbn. rewrite Ev. cbn.
    eexists. eexists. split; [reflexivity|]. cbn.
    rewrite <- !app_assoc. cbn. do 5 (split; [first [reflexivity|assumption]|]).
    unfold widgets_ready. cbn. split; [congruence|]. split; [congruence|].
    intros p [= <-]. rewrite lookup_insert_eq. discriminate.
Qed.

(** ** The timer period *)

Lemma binary_round_aux_sign sx mx ex lx :
  SFltb (S754_zero false) (binary_round_aux prec emax sx mx ex lx) = true ->
  sx = false.
Proof.
  unfold binary_round_aux.
  destruct (shr_fexp prec emax mx ex lx) as [mrs e'].
  destruct (shr_fexp prec emax _ e' loc_Exact) as [mrs' e''].
  destruct (shr_m mrs') as [|p|p]; [discriminate| |discriminate].
  destruct (e'' <=? emax - prec); destruct sx; cbn; congruence.
Qed.

(** A reciprocal is a positive finite number only for a positive divisor. *)
Lemma reciprocal_positive_finite x :
  Double.positive_finite (1 / x) = true -> (0 <? x)%float = true.
Proof.
  unfold Double.positive_finite. intros Hpf.
  apply andb_prop in Hpf. destruct Hpf as [Hpos Hfin].
  rewrite ltb_spec in *. rewrite div_spec in *.
  change (Prim2SF 0) with (S754_zero false) in *.
  change (Prim2SF infinity) with (S754_infinity false) in *.
  change (Prim2SF 1) with (S754_finite false 4503599627370496 (-52)) in *.
  destruct (Prim2SF x) as [s|s| |s m e]; cbn in *.
  - destruct s; discriminate.
  - discriminate.
  - discriminate.
  - unfold SF64div, SFdiv in Hpos.
    destruct (SFdiv_core_binary _ _ _ _ _ _) as [[q e'] l].
    apply binary_round_aux_sign in Hpos. cbn in Hpos. subst s. reflexivity.
Qed.

(** C10.  A tick that latches, decodes and resizes successfully ends by
    arming the timer with the binary64 quotient [1 / optimal_fps], whatever
    [optimal_fps] is: there is no test of it on the way.  That period is a
    positive finite number only if [optimal_fps] is greater than zero.  The
    fallback of [detect_fps] gives no such guarantee: when no candidate is
    answered within tolerance, [optimal_fps] is the driver's next report as it
    comes. *)
Theorem tick_period_is_unguarded_reciprocal w d1 d2 m r :
  is_running (app w) = true ->
  vc_grab (cap (app w)) = (true, d1) ->
  vc_retrieve (frame (app w)) d1 = (true, m, d2) ->
  resize m (optimal_width (app w)) (optimal_height (app w)) = Some r ->
  Mat_empty r = false ->
  widgets_ready w ->
  (exists w' t,
     update_frame w = Done tt w'
     /\ trace w'
        = (trace w ++ t ++ [EvRepeatTimeout (1 / optimal_fps (app w))%float])%list
     /\ Forall (fun e => match e with
                         | EvRepeatTimeout _ | EvAddTimeout _ => False
                         | _ => True
                         end) t)
  /\ (Double.positive_finite (1 / optimal_fps (app w)) = true ->
      (0 <? optimal_fps (app w))%float = true)
  /\ (forall w0,
        fps_all_rejected fps_candidates (cap (app w0)) = true ->
        exists w1,
          detect_fps w0 = Done tt w1
          /\ optimal_fps (app w1)
             = fst (vc_get CAP_PROP_FPS
                      (after_fps fps_candidates (cap (app w0))))).
Proof.
  intros Hrun Hgrab Hret Hres Hne Hready. split; [|split].
  - destruct (update_frame_pumps w d1 d2 m r Hrun Hgrab Hret Hres Hne Hready)
      as (w' & p & Hdone & Htrace & _).
    exists w'.
    exists ([EvCapGrab true; EvCapRetrieve true;
             EvResize (optimal_width (app w)) (optimal_height (app w));
             EvCvtColor COLOR_BGR2RGB; EvCopyTo] ++
            match fltk_img (app w) with
            | Some q => [EvBoxImage None; EvDeleteImage q]
            | None => []
            end ++
            [EvNewImage p; EvBoxImage (Some p); EvBoxRedraw; EvWindowRedraw;
             EvFlush])%list.
    split; [exact Hdone|]. split.
    + rewrite Htrace. destruct (fltk_img (app w)); reflexivity.
    + destruct (fltk_img (app w)); cbn; repeat constructor.
  - apply reciprocal_positive_finite.
  - intros w0 Hrej. unfold detect_fps.
    destruct (detect_fps_from_falls_back fps_candidates w0 Hrej)
      as (w1 & Hdone & Ha & _).
    exists w1. split; [exact Hdone|]. rewrite Ha. reflexivity.
Qed.

(** ** The snapshot guard after startup *)

Lemma startup_display_buffer_allocated d w0 :
  startup (world_init d) = Done true w0 ->
  display_matches_optimal w0
  /\ 0 < optimal_width (app w0) /\ 0 < optimal_height (app w0).
Proof.
  intros Hs. split; [apply (startup_allocates_negotiated_size _ _ Hs)|].
  apply (startup_negotiates_positive_size _ _ Hs); cbn; lia.
Qed.

(** C2, what the code does.  The guard of [screenshot_callback] reports a
    failure without writing when the display buffer is empty.  But [main]
    allocates the display buffer at the negotiated size before the event loop
    starts, so from then on the buffer is never empty, whatever the loop has
    delivered (nothing yet, or only failed ticks): a snapshot request in such
    a state converts the buffer as allocated, calls [imwrite] for
    screenshot_<now_time>.png and, when the write succeeds, reports
    success. *)
Theorem snapshot_guard_is_dead_after_startup d w0 (evs : list GuiEvent)
    (now_time : Z) (write_ok : bool) :
  startup (world_init d) = Done true w0 ->
  (forall w, Mat_empty (cached_frame (app w)) = true ->
     screenshot_callback now_time write_ok w =
       Done tt {| app := app w; heap := heap w;
                  trace := trace w ++ [EvAlert "截图失败" "没有可保存的图像数据"] |})
  /\ Mat_empty (cached_frame (app (final (Fl_run evs w0)))) = false
  /\ exists bgr,
       screenshot_callback now_time write_ok (final (Fl_run evs w0)) =
         Done tt
           {| app := app (final (Fl_run evs w0));
              heap := heap (final (Fl_run evs w0));
              trace := trace (final (Fl_run evs w0)) ++
                [EvCvtColor COLOR_RGB2BGR;
                 EvImwrite ("screenshot_" ++ to_string now_time ++ ".png")
                   bgr write_ok] ++
                (if write_ok
                 then [EvMessageTitle "截图成功";
                       EvMessage ("图像已保存为:" ++ newline ++
                                  ("screenshot_" ++ to_string now_time ++ ".png"))]
                 else [EvAlert "截图失败" "无法保存图像文件"]) |}.
Proof.
  intros Hs.
  destruct (startup_display_buffer_allocated d w0 Hs) as (Hsize & Hw & Hh).
  destruct (Fl_run_keeps_size evs w0 Hsize) as ((Hr & Hc) & (Nw & Nh & _) & _).
  assert (He : Mat_empty (cached_frame (app (final (Fl_run evs w0)))) = false).
  { unfold Mat_empty. rewrite Hr, Hc, Nw, Nh.
    apply orb_false_intro; apply Z.eqb_neq; lia. }
  split; [|split].
  - intros w. apply screenshot_callback_empty.
  - exact He.
  - eexists. apply (screenshot_callback_writes now_time write_ok _ He).
Qed.

(** ** Closing twice *)

Lemma window_close_callback_with_image w p img b v :
  fltk_img (app w) = Some p ->
  heap w !! p = Some img ->
  display_box (app w) = Some b ->
  window (app w) = Some v ->
  window_close_callback w =
    Done tt
      {| app := set_window
                  (Some {| win_w := win_w v; win_h := win_h v;
                           win_label := win_label v; win_shown := false |})
                  (set_display_box
                     (Some {| box_w := box_w b; box_h := box_h b;
                              box_image := None |})
                     (set_cap (vc_release (cap (app w)))
                        (set_is_running false (app w))));
         heap := delete p (heap w);
         trace := trace w ++ [EvCapRelease; EvBoxImage None;
                              EvDeleteImage p; EvWindowHide] |}.
Proof.
  intros Hp Hh Hb Hv. unfold window_close_callback. run.
  rewrite Hp. cbn. rewrite Hb. cbn. rewrite Hh. cbn. rewrite Hv. cbn.
  rewrite <- !app_assoc. reflexivity.
Qed.

Lemma window_close_callback_dangling w p b :
  fltk_img (app w) = Some p ->
  heap w !! p = None ->
  display_box (app w) = Some b ->
  window_close_callback w =
    Stuck (DeleteDangling p)
      {| app := set_display_box
                  (Some {| box_w := box_w b; box_h := box_h b;
                           box_image := None |})
                  (set_cap (vc_release (cap (app w)))
                     (set_is_running false (app w)));
         heap := heap w;
         trace := trace w ++ [EvCapRelease; EvBoxImage None] |}.
Proof.
  intros Hp Hh Hb. unfold window_close_callback. run.
  rewrite Hp. cbn. rewrite Hb. cbn. rewrite Hh. cbn.
  rewrite <- !app_assoc. reflexivity.
Qed.

(** The callback taken alone, run twice in a row.  It does not clear
    [fltk_img]: when an image object exists, a second run would find the
    pointer non-null and delete the same object again.  When no image object
    exists a second run releases the device once more and hides the window
    again, changing nothing else.  The event loop never makes that second
    run, see [second_close_request_is_a_no_op] below. *)
Lemma second_close_deletes_image_again w p img b v :
  fltk_img (app w) = Some p ->
  heap w !! p = Some img ->
  display_box (app w) = Some b ->
  window (app w) = Some v ->
  (exists w1 w2,
     window_close_callback w = Done tt w1
     /\ fltk_img (app w1) = Some p
     /\ heap w1 !! p = None
     /\ window_close_callback w1 = Stuck (DeleteDangling p) w2
     /\ trace w2 = (trace w ++ [EvCapRelease; EvBoxImage None; EvDeleteImage p;
                                EvWindowHide; EvCapRelease; EvBoxImage None])%list)
  /\ (forall w0 b0 v0,
        fltk_img (app w0) = None ->
        display_box (app w0) = Some b0 ->
        window (app w0) = Some v0 ->
        exists w1 w2,
          window_close_callback w0 = Done tt w1
          /\ window_close_callback w1 = Done tt w2
          /\ app w2 = set_cap (vc_release (cap (app w1))) (app w1)
          /\ heap w2 = heap w1
          /\ trace w2 = (trace w1 ++ [EvCapRelease; EvWindowHide])%list).
Proof.
  intros Hp Hh Hb Hv. split.
  - pose proof (window_close_callback_with_image w p img b v Hp Hh Hb Hv) as H1.
    match type of H1 with _ = Done tt ?x => set (w1 := x) in * end.
    assert (Hp1 : fltk_img (app w1) = Some p) by exact Hp.
    assert (Hh1 : heap w1 !! p = None) by apply lookup_delete_eq.
    pose proof (window_close_callback_dangling w1 p _ Hp1 Hh1 eq_refl) as H2.
    exists w1. eexists. split; [exact H1|]. split; [exact Hp1|].
    split; [exact Hh1|]. split; [exact H2|].
    cbn. rewrite <- !app_assoc. reflexivity.
  - intros w0 b0 v0 Hn Hb0 Hv0.
    unfold window_close_callback. run. rewrite Hn. cbn. rewrite Hv0. cbn.
    eexists. eexists. split; [reflexivity|]. cbn. rewrite Hn. cbn.
    split; [reflexivity|]. cbn. repeat split.
    rewrite <- !app_assoc. reflexivity.
Qed.

(** ** What the probes leave alone *)

Lemma negotiated_refl w : negotiated w w.
Proof.
  unfold negotiated, same_buffers. repeat split.
  exists []. split; [apply extends_refl | constructor].
Qed.

Lemma negotiated_trans w1 w2 w3 :
  negotiated w1 w2 -> negotiated w2 w3 -> negotiated w1 w3.
Proof.
  unfold negotiated, same_buffers.
  intros ((A1 & A2 & A3) & A4 & A5 & A6 & A7 & A8 & t1 & T1 & N1)
         ((B1 & B2 & B3) & B4 & B5 & B6 & B7 & B8 & t2 & T2 & N2).
  repeat split; try congruence.
  exists (t1 ++ t2)%list. split.
  - rewrite T2, T1, app_assoc. reflexivity.
  - apply Forall_app. split; assumption.
Qed.

Lemma detect_resolutions_from_outcome l : forall w,
  negotiated w (final (detect_resolutions_from l w))
  /\ optimal_fps (app (final (detect_resolutions_from l w))) = optimal_fps (app w)
  /\ (exists n, (n <= length l)%nat
        /\ requests (trace (final (detect_resolutions_from l w)))
           = (requests (trace w) ++ all_size_requests (firstn n l))%list)
  /\ match detect_resolutions_from l w with
     | Done _ w' =>
         (optimal_width (app w') = optimal_width (app w)
          /\ optimal_height (app w') = optimal_height (app w))
         \/ In (optimal_width (app w'), optimal_height (app w')) l
     | Stuck f w' =>
         (exists x, f = IntCastOverflow x)
         /\ optimal_width (app w') = optimal_width (app w)
         /\ optimal_height (app w') = optimal_height (app w)
     end.
Proof.
  induction l as [|res l IH]; intros w.
  - cbn. split; [apply negotiated_refl|]. split; [reflexivity|].
    split; [exists 0%nat; cbn; rewrite app_nil_r; auto | auto].
  - cbn -[firstn]. run.
    destruct (vc_get _ _) as [a1 d3]. cbn -[firstn].
    destruct (Double.to_int a1) as [z1|]; cbn -[firstn].
    2:{ split; [|split; [reflexivity|split]].
        - unfold negotiated, same_buffers. cbn. repeat split.
          eexists. split; [rewrite <- !app_assoc; reflexivity|]. repeat constructor.
        - exists 1%nat. split; [cbn; lia|]. rewrite !requests_app. cbn.
          rewrite <- !app_assoc. reflexivity.
        - split; [eauto|]. auto. }
    destruct (vc_get _ _) as [a2 d4]. cbn -[firstn].
    destruct (Double.to_int a2) as [z2|]; cbn -[firstn].
    2:{ split; [|split; [reflexivity|split]].
        - unfold negotiated, same_buffers. cbn. repeat split.
          eexists. split; [rewrite <- !app_assoc; reflexivity|]. repeat constructor.
        - exists 1%nat. split; [cbn; lia|]. rewrite !requests_app. cbn.
          rewrite <- !app_assoc. reflexivity.
        - split; [eauto|]. auto. }
    destruct ((z1 =? fst res) && (z2 =? snd res)) eqn:Hm.
    + cbn -[firstn]. split; [|split; [reflexivity|split]].
      * unfold negotiated, same_buffers. cbn. repeat split.
        eexists. split; [rewrite <- !app_assoc; reflexivity|]. repeat constructor.
      * exists 1%nat. split; [cbn; lia|]. rewrite !requests_app. cbn.
        rewrite <- !app_assoc. reflexivity.
      * right. left. apply andb_prop in Hm. destruct Hm as [E1 E2].
        apply Z.eqb_eq in E1, E2. subst. destruct res; reflexivity.
    + match goal with |- context [detect_resolutions_from l ?w1] =>
        destruct (IH w1) as (Hn & Hf & (n & Hlen & Hreq) & Hout);
        set (w1' := w1) in * end.
      split; [|split; [exact Hf|split]].
      * eapply negotiated_trans; [|exact Hn].
        unfold negotiated, same_buffers. cbn. repeat split.
        eexists. split; [rewrite <- !app_assoc; reflexivity|]. repeat constructor.
      * exists (S n). split; [cbn; lia|]. rewrite Hreq. subst w1'. cbn.
        rewrite !requests_app. cbn. rewrite <- !app_assoc. reflexivity.
      * destruct (detect_resolutions_from l w1') as [[] w'|f w']; cbn in *.
        -- destruct Hout as [?|?]; [left|right; right]; assumption.
        -- exact Hout.
Qed.

Lemma detect_fps_from_outcome l : forall w,
  exists w' n v,
    detect_fps_from l w = Done tt w'
    /\ negotiated w w'
    /\ optimal_width (app w') = optimal_width (app w)
    /\ optimal_height (app w') = optimal_height (app w)
    /\ (n <= length l)%nat /\ (l <> [] -> (1 <= n)%nat)
    /\ requests (trace w') = (requests (trace w) ++ fps_requests (firstn n l))%list
    /\ last (trace w') = Some (EvCapGet CAP_PROP_FPS v)
    /\ optimal_fps (app w') = v.
Proof.
  induction l as [|fps l IH]; intros w.
  - cbn. run. destruct (vc_get _ _) as [a d1]. cbn.
    eexists. exists 0%nat, a. split; [reflexivity|]. cbn.
    split.
    { unfold negotiated, same_buffers. cbn. repeat split.
      eexists. split; [reflexivity|]. repeat constructor. }
    do 2 (split; [reflexivity|]). split; [lia|]. split; [congruence|].
    split; [rewrite requests_app; cbn; rewrite app_nil_r; reflexivity|].
    split; [apply last_snoc | reflexivity].
  - cbn -[firstn]. run. destruct (vc_get _ _) as [a d1]. cbn -[firstn].
    destruct (Double.within_one a fps).
    + eexists. exists 1%nat, a. split; [reflexivity|]. cbn.
      split.
      { unfold negotiated, same_buffers. cbn. repeat split.
        eexists. split; [rewrite <- !app_assoc; reflexivity|]. repeat constructor. }
      do 2 (split; [reflexivity|]). split; [lia|]. split; [lia|].
      split; [rewrite !requests_app; cbn; rewrite <- !app_assoc; reflexivity|].
      split; [apply last_snoc | reflexivity].
    + match goal with |- context [detect_fps_from l ?w1] =>
        destruct (IH w1) as (w' & n & v & Hrun & Hn & Hw & Hh & Hlen & _ & Hreq & Hlast & Hv)
      end.
      exists w', (S n), v. split; [exact Hrun|]. cbn in *.
      split.
      { eapply negotiated_trans; [|exact Hn].
        unfold negotiated, same_buffers. cbn. repeat split.
        eexists. split; [rewrite <- !app_assoc; reflexivity|]. repeat constructor. }
      do 2 (split; [assumption|]). split; [lia|]. split; [lia|].
      split; [rewrite Hreq, !requests_app; cbn; rewrite <- !app_assoc; reflexivity|].
      split; assumption.
Qed.

(** ** Ticks, path by path *)

Lemma update_frame_resize_failed w d1 d2 m :
  is_running (app w) = true ->
  vc_grab (cap (app w)) = (true, d1) ->
  vc_retrieve (frame (app w)) d1 = (true, m, d2) ->
  resize m (optimal_width (app w)) (optimal_height (app w)) = None ->
  update_frame w =
    Stuck CvException
      {| app := set_frame m (set_cap d2 (app w)); heap := heap w;
         trace := trace w ++
           [EvCapGrab true; EvCapRetrieve true;
            EvResize (optimal_width (app w)) (optimal_height (app w))] |}.
Proof.
  intros Hrun Hgrab Hret Hres. unfold update_frame. run.
  rewrite Hrun. cbn. rewrite Hgrab. cbn. rewrite Hret. cbn. rewrite Hres. cbn.
  rewrite <- !app_assoc. reflexivity.
Qed.

Lemma update_frame_pumps_exact w d1 d2 m r b v :
  is_running (app w) = true ->
  vc_grab (cap (app w)) = (true, d1) ->
  vc_retrieve (frame (app w)) d1 = (true, m, d2) ->
  resize m (optimal_width (app w)) (optimal_height (app w)) = Some r ->
  Mat_empty r = false ->
  display_box (app w) = Some b ->
  window (app w) = Some v ->
  (forall q, fltk_img (app w) = Some q -> heap w !! q <> None) ->
  update_frame w =
    Done tt
      {| app :=
           set_display_box
             (Some {| box_w := box_w b; box_h := box_h b;
                      box_image :=
                        Some (fresh (dom match fltk_img (app w) with
                                         | Some q => delete q (heap w)
                                         | None => heap w
                                         end)) |})
             (set_fltk_img
                (Some (fresh (dom match fltk_img (app w) with
                                  | Some q => delete q (heap w)
                                  | None => heap w
                                  end)))
                (set_cached_frame
                   {| rows := rows r; cols := cols r;
                      data := List.map swap_channels (data r) |}
                   (set_frame_rgb
                      {| rows := rows r; cols := cols r;
                         data := List.map swap_channels (data r) |}
                      (set_frame r (set_cap d2 (app w))))));
         heap :=
           <[fresh (dom match fltk_img (app w) with
                        | Some q => delete q (heap w)
                        | None => heap w
                        end) :=
               image_of {| rows := rows r; cols := cols r;
                           data := List.map swap_channels (data r) |}]>
             match fltk_img (app w) with
             | Some q => delete q (heap w)
             | None => heap w
             end;
         trace :=
           trace w ++
           [EvCapGrab true; EvCapRetrieve true;
            EvResize (optimal_width (app w)) (optimal_height (app w));
            EvCvtColor COLOR_BGR2RGB; EvCopyTo] ++
           match fltk_img (app w) with
           | Some q => [EvBoxImage None; EvDeleteImage q]
           | None => []
           end ++
           [EvNewImage (fresh (dom match fltk_img (app w) with
                                   | Some q => delete q (heap w)
                                   | None => heap w
                                   end));
            EvBoxImage (Some (fresh (dom match fltk_img (app w) with
                                         | Some q => delete q (heap w)
                                         | None => heap w
                                         end)));
            EvBoxRedraw; EvWindowRedraw; EvFlush;
            EvRepeatTimeout (1 / optimal_fps (app w))%float] |}.
Proof.
  intros Hrun Hgrab Hret Hres Hne Eb Ev Hlive.
  unfold update_frame. run.
  rewrite Hrun. cbn. rewrite Hgrab. cbn. rewrite Hret. cbn.
  rewrite Hres. cbn. unfold cvtColor. rewrite Hne. cbn.
  destruct (fltk_img (app w)) as [q|] eqn:Eq; cbn.
  - rewrite Eb. cbn. destruct (heap w !! q) as [img|] eqn:Eh;
      [|exfalso; apply (Hlive q); auto].
    cbn. rewrite Ev. cbn. rewrite <- !app_assoc. reflexivity.
  - rewrite Eb. cbn. rewrite Ev. cbn. rewrite <- !app_assoc. reflexivity.
Qed.

(** ** The loop's working state *)

Lemma image_in_step_live w :
  image_in_step w ->
  forall q, fltk_img (app w) = Some q -> heap w !! q <> None.
Proof.
  intros (b & _ & Himg) q Hq. rewrite Hq in Himg. destruct Himg as [-> _].
  rewrite lookup_singleton_eq. discriminate.
Qed.

Lemma image_in_step_cleared w :
  image_in_step w ->
  match fltk_img (app w) with
  | Some q => delete q (heap w)
  | None => heap w
  end = ∅.
Proof.
  intros (b & _ & Himg). destruct (fltk_img (app w)) as [q|].
  - destruct Himg as [-> _]. apply delete_singleton_eq.
  - apply Himg.
Qed.

Lemma update_frame_keeps_ready w :
  ready w ->
  ready (final (update_frame w))
  /\ match update_frame w with
     | Done _ _ => True
     | Stuck f w' =>
         f = CvException
         /\ last (trace w')
            = Some (EvResize (optimal_width (app w)) (optimal_height (app w)))
     end.
Proof.
  intros Hready.
  pose proof Hready as ((v & Hv & Hshown) & Hstep & (Hr & Hc) & Hw & Hh).
  pose proof Hstep as (b & Hb & Himg).
  destruct (is_running (app w)) eqn:Hrun.
  2:{ rewrite (update_frame_stopped w Hrun). auto. }
  destruct (vc_grab (cap (app w))) as [[] d1] eqn:Hg.
  2:{ rewrite (update_frame_grab_failed w d1 Hrun Hg). cbn. split; [|exact I].
      unfold ready, image_in_step, display_matches_optimal. cbn. eauto 10. }
  destruct (vc_retrieve (frame (app w)) d1) as [[[] m] d2] eqn:Hret.
  2:{ rewrite (update_frame_retrieve_failed w d1 d2 m Hrun Hg Hret). cbn.
      split; [|exact I].
      unfold ready, image_in_step, display_matches_optimal. cbn. eauto 10. }
  destruct (resize m (optimal_width (app w)) (optimal_height (app w)))
    as [r|] eqn:Hres.
  2:{ rewrite (update_frame_resize_failed w d1 d2 m Hrun Hg Hret Hres). cbn.
      split.
      - unfold ready, image_in_step, display_matches_optimal. cbn. eauto 10.
      - split; [reflexivity|].
        change [EvCapGrab true; EvCapRetrieve true;
                EvResize (optimal_width (app w)) (optimal_height (app w))]
          with ([EvCapGrab true; EvCapRetrieve true] ++
                [EvResize (optimal_width (app w)) (optimal_height (app w))])%list.
        rewrite app_assoc. apply last_snoc. }
  destruct (resize_size _ _ _ _ Hres) as [Er Ec].
  assert (Hne : Mat_empty r = false).
  { unfold Mat_empty. rewrite Er, Ec.
    apply orb_false_intro; apply Z.eqb_neq; lia. }
  rewrite (update_frame_pumps_exact w d1 d2 m r b v Hrun Hg Hret Hres Hne Hb Hv
             (image_in_step_live w Hstep)).
  cbn. split; [|exact I].
  rewrite (image_in_step_cleared w Hstep).
  unfold ready, image_in_step, display_matches_optimal. cbn.
  split; [eauto|]. split.
  - eexists. split; [reflexivity|]. cbn. split; [|reflexivity].
    apply insert_empty.
  - auto.
Qed.

Lemma screenshot_callback_done now_time write_ok w :
  exists w', screenshot_callback now_time write_ok w = Done tt w'.
Proof.
  destruct (Mat_empty (cached_frame (app w))) eqn:He.
  - rewrite (screenshot_callback_empty now_time write_ok w He). eauto.
  - rewrite (screenshot_callback_writes now_time write_ok w He). eauto.
Qed.

Lemma screenshot_callback_keeps_ready now_time write_ok w :
  ready w -> ready (final (screenshot_callback now_time write_ok w)).
Proof.
  destruct (screenshot_callback_effect now_time write_ok w) as (Ea & Eh & _).
  unfold ready, image_in_step, display_matches_optimal.
  rewrite Ea, Eh. auto.
Qed.

Lemma closes_cons e evs :
  closes (e :: evs) = ((if is_close e then 1 else 0) + closes evs)%nat.
Proof. unfold closes. cbn. destruct (is_close e); reflexivity. Qed.

Lemma ticks_cons e evs :
  ticks (e :: evs) = ((if is_tick e then 1 else 0) + ticks evs)%nat.
Proof. unfold ticks. cbn. destruct (is_tick e); reflexivity. Qed.

(** Until a close request arrives the loop stays in its working state, and
    the only fault a run can end in is a [cv::resize] that throws. *)
Lemma Fl_run_keeps_ready evs : forall w,
  ready w -> closes evs = 0%nat ->
  ready (final (Fl_run evs w))
  /\ same_negotiation w (final (Fl_run evs w))
  /\ match Fl_run evs w with
     | Done _ _ => True
     | Stuck f w' =>
         f = CvException
         /\ last (trace w')
            = Some (EvResize (optimal_width (app w)) (optimal_height (app w)))
     end.
Proof.
  induction evs as [|e evs IH]; intros w Hready Hno.
  - cbn. unfold same_negotiation. auto.
  - rewrite closes_cons in Hno. rewrite Fl_run_cons.
    destruct e as [|now_time write_ok|]; cbn in Hno; [| |discriminate];
      cbn [dispatch].
    + destruct (update_frame_keeps_ready w Hready) as [Hr Hf].
      destruct (update_frame_effect w) as (N & _).
      destruct (update_frame w) as [[] w1|f w1]; cbn [final] in *.
      * destruct (IH w1 Hr Hno) as (Hr' & N' & Hf').
        split; [exact Hr'|]. split.
        -- unfold same_negotiation in *. intuition congruence.
        -- destruct (Fl_run evs w1); [exact I|].
           destruct N as (Nw & Nh & _). rewrite Nw, Nh in Hf'. exact Hf'.
      * auto.
    + pose proof (screenshot_callback_keeps_ready now_time write_ok w Hready) as Hr.
      destruct (screenshot_callback_effect now_time write_ok w) as (Ea & _).
      destruct (screenshot_callback_done now_time write_ok w) as [w1 Hd].
      rewrite Hd in *. cbn [final] in *.
      destruct (IH w1 Hr Hno) as (Hr' & N' & Hf').
      split; [exact Hr'|]. split.
      * unfold same_negotiation in *. rewrite <- Ea. exact N'.
      * destruct (Fl_run evs w1); [exact I|]. rewrite <- Ea. exact Hf'.
Qed.

(** ** What [main] sets up *)

Lemma startup_shape w w0 :
  startup w = Done true w0 ->
  exists w2,
    vc_isOpened (vc_open 0 (cap (app w))) = true
    /\ negotiated
         {| app := set_cap (vc_open 0 (cap (app w))) (app w); heap := heap w;
            trace := trace w ++ [EvCapOpen 0; EvCapIsOpened true] |} w2
    /\ ((optimal_width (app w2) = optimal_width (app w)
         /\ optimal_height (app w2) = optimal_height (app w))
        \/ In (optimal_width (app w2), optimal_height (app w2)) resolutions)
    /\ (exists v, last (trace w2) = Some (EvCapGet CAP_PROP_FPS v)
                  /\ optimal_fps (app w2) = v)
    /\ w0 =
       {| app :=
            set_display_box
              (Some {| box_w := optimal_width (app w2);
                       box_h := optimal_height (app w2); box_image := None |})
              (set_window
                 (Some {| win_w := optimal_width (app w2);
                          win_h := optimal_height (app w2) + 30;
                          win_label := "摄像头监控（FLTK界面）";
                          win_shown := true |})
                 (set_cap
                    (vc_set CAP_PROP_AUTOFOCUS 1
                       (vc_set CAP_PROP_AUTO_EXPOSURE 1 (cap (app w2))))
                    (set_cached_frame
                       (Mat_create
                          (uninitialized (optimal_height (app w2))
                             (optimal_width (app w2)))
                          (optimal_height (app w2)) (optimal_width (app w2))
                          (cached_frame (app w2)))
                       (set_frame_rgb
                          (Mat_create
                             (uninitialized (optimal_height (app w2))
                                (optimal_width (app w2)))
                             (optimal_height (app w2)) (optimal_width (app w2))
                             (frame_rgb (app w2)))
                          (app w2)))));
          heap := heap w2;
          trace := trace w2 ++
            [EvCapSet CAP_PROP_AUTO_EXPOSURE 1; EvCapSet CAP_PROP_AUTOFOCUS 1;
             EvNewButton (Z.quot (optimal_width (app w2) - 100) 2)
               (optimal_height (app w2) + 5) 100 25 "截图";
             EvWindowShow; EvAddTimeout 0] |}.
Proof.
  unfold startup, detect_resolutions, detect_fps.
  remember (detect_resolutions_from resolutions) as dr eqn:Edr.
  remember (detect_fps_from fps_candidates) as df eqn:Edf.
  run. destruct (vc_isOpened _) eqn:Hopen; cbn; [|discriminate].
  match goal with |- context [dr ?w1] => set (w1' := w1) end.
  destruct (dr w1') as [[] wa|] eqn:Hdr; [|discriminate].
  destruct (df wa) as [[] wb|] eqn:Hdf; [|discriminate].
  cbn. intros [= <-]. exists wb. split; [reflexivity|].
  subst dr df.
  destruct (detect_resolutions_from_outcome resolutions w1') as (Na & _ & _ & Hsize).
  rewrite Hdr in Na, Hsize. cbn [final] in Na.
  destruct (detect_fps_from_outcome fps_candidates wa)
    as (wb' & n & v & Hrun & Nb & Hw & Hh & _ & _ & _ & Hlast & Hv).
  rewrite Hdf in Hrun. injection Hrun as <-.
  split.
  { pose proof (negotiated_trans w1' wa _ Na Nb) as N. subst w1'.
    rewrite <- app_assoc in N. exact N. }
  split.
  - rewrite Hw, Hh. exact Hsize.
  - split; [eauto|]. rewrite <- !app_assoc. reflexivity.
Qed.

Lemma startup_ready d w0 :
  startup (world_init d) = Done true w0 ->
  ready w0
  /\ is_running (app w0) = true
  /\ fltk_img (app w0) = None
  /\ In (optimal_width (app w0), optimal_height (app w0)) resolutions.
Proof.
  intros Hs.
  destruct (startup_shape _ _ Hs)
    as (w2 & _ & (_ & Hf & Hb & Hv & Hr & Hh & _) & Hsize & _ & ->).
  cbn in Hf, Hb, Hv, Hr, Hh.
  assert (Hin : In (optimal_width (app w2), optimal_height (app w2)) resolutions).
  { destruct Hsize as [[-> ->]|Hin]; [cbn; auto 10 | exact Hin]. }
  destruct (resolutions_positive _ _ Hin) as [Hpw Hph].
  split; [|cbn; auto].
  unfold ready, image_in_step, display_matches_optimal. cbn.
  split; [eauto|]. split; [eexists; split; [reflexivity|]; rewrite Hf; cbn; auto|].
  split; [apply Mat_create_shape|]. auto.
Qed.

Lemma startup_declined w w0 :
  startup w = Done false w0 ->
  vc_isOpened (vc_open 0 (cap (app w))) = false.
Proof.
  unfold startup.
  remember detect_resolutions as dr eqn:Edr.
  remember detect_fps as df eqn:Edf.
  run. destruct (vc_isOpened _); cbn; [|reflexivity].
  destruct (dr _) as [[] w1|]; [|discriminate].
  destruct (df _) as [[] w2|]; [|discriminate].
  cbn. discriminate.
Qed.

Lemma startup_not_opened w :
  vc_isOpened (vc_open 0 (cap (app w))) = false ->
  startup w =
    Done false
      {| app := set_cap (vc_open 0 (cap (app w))) (app w); heap := heap w;
         trace := trace w ++
           [EvCapOpen 0; EvCapIsOpened false;
            EvAlert "初始化失败" "无法打开摄像头，请检查设备是否连接"] |}.
Proof.
  intros Hopen. unfold startup. run. rewrite Hopen. cbn.
  rewrite <- !app_assoc. reflexivity.
Qed.

(** X1.  [main] returns -1 exactly when the camera is not open after the
    [open] call: then it shows one alert and does nothing else, whatever
    the toolkit would have delivered (no probing, no window, no timer).  When
    the camera is open, a [main] that returns has run the event loop to its
    end and returns 0. *)
Theorem main_exit_code (evs : list GuiEvent) w :
  (vc_isOpened (vc_open 0 (cap (app w))) = false ->
   main evs w =
     Done (-1)
       {| app := set_cap (vc_open 0 (cap (app w))) (app w); heap := heap w;
          trace := trace w ++
            [EvCapOpen 0; EvCapIsOpened false;
             EvAlert "初始化失败" "无法打开摄像头，请检查设备是否连接"] |})
  /\ (vc_isOpened (vc_open 0 (cap (app w))) = true ->
      forall code w',
        main evs w = Done code w' ->
        code = 0
        /\ exists w0, startup w = Done true w0 /\ Fl_run evs w0 = Done tt w').
Proof.
  split.
  - intros Hopen. unfold main, bind. rewrite (startup_not_opened w Hopen).
    reflexivity.
  - intros Hopen code w'. unfold main, bind, ret.
    destruct (startup w) as [[] w0|f w0] eqn:Hs; [| |discriminate].
    + destruct (Fl_run evs w0) as [[] w1|] eqn:Hr; [|discriminate].
      intros [= <- <-]. eauto.
    + apply startup_declined in Hs. congruence.
Qed.

Lemma detect_resolutions_from_returns l : forall w,
  readbacks_convert l (cap (app w)) = true ->
  exists w', detect_resolutions_from l w = Done tt w'.
Proof.
  induction l as [|c l IH]; intros w Hconv; [cbn; eauto|].
  cbn [readbacks_convert] in Hconv.
  destruct (answered_size c (cap (app w))) as [[z1|] [z2|]] eqn:Hc;
    try discriminate.
  destruct (answered_size_inv _ _ _ _ Hc) as (a1 & a2 & d4 & Hask & H1 & H2).
  rewrite Hask in Hconv. cbn [snd] in Hconv.
  rewrite (detect_resolutions_step c l w a1 a2 d4 _ _ Hask H1 H2). cbn zeta.
  destruct ((z1 =? fst c) && (z2 =? snd c)); [eauto|].
  apply IH. exact Hconv.
Qed.

(** X2.  When every read-back of the probe converts to [int],
    [detect_resolutions] returns, and the optimal size is then either
    unchanged or one of the seven candidates, between 640 x 480 and
    3840 x 2160.  It has requested a prefix of the candidate list, in order,
    made no call other than property requests and read-backs, and changed
    nothing in the application but the driver and the optimal size. *)
Theorem resolution_probe_outcomes w :
  readbacks_convert resolutions (cap (app w)) = true ->
  exists w' n,
    detect_resolutions w = Done tt w'
    /\ negotiated w w'
    /\ optimal_fps (app w') = optimal_fps (app w)
    /\ (n <= 7)%nat
    /\ requests (trace w')
       = (requests (trace w) ++ all_size_requests (firstn n resolutions))%list
    /\ ((optimal_width (app w') = optimal_width (app w)
         /\ optimal_height (app w') = optimal_height (app w))
        \/ (In (optimal_width (app w'), optimal_height (app w')) resolutions
            /\ 640 <= optimal_width (app w') <= 3840
            /\ 480 <= optimal_height (app w') <= 2160)).
Proof.
  intros Hconv. unfold detect_resolutions.
  destruct (detect_resolutions_from_returns resolutions w Hconv) as [w' Hrun].
  destruct (detect_resolutions_from_outcome resolutions w)
    as (N & F & (n & Hn & R) & O).
  rewrite Hrun in N, F, R, O. cbn [final] in N, F, R.
  exists w', n. split; [exact Hrun|]. split; [exact N|]. split; [exact F|].
  split; [exact Hn|]. split; [exact R|].
  destruct O as [O|O]; [left; exact O|right].
  split; [exact O|]. cbn in O.
  repeat (destruct O as [[= <- <-]|O]; [lia|]). contradiction.
Qed.

(** X3.  [detect_fps] never fails: whatever the driver answers it returns
    after requesting a non-empty prefix of the seven candidate rates, in
    order, and [optimal_fps] is then the value of the last read-back it made.
    The initial 30 is always overwritten.  It makes no call other than
    property requests and read-backs and changes nothing in the application
    but the driver and [optimal_fps]. *)
Theorem fps_probe_ends_on_a_readback w :
  exists w' n v,
    detect_fps w = Done tt w'
    /\ negotiated w w'
    /\ optimal_width (app w') = optimal_width (app w)
    /\ optimal_height (app w') = optimal_height (app w)
    /\ (1 <= n <= 7)%nat
    /\ requests (trace w')
       = (requests (trace w) ++ fps_requests (firstn n fps_candidates))%list
    /\ last (trace w') = Some (EvCapGet CAP_PROP_FPS v)
    /\ optimal_fps (app w') = v.
Proof.
  unfold detect_fps.
  destruct (detect_fps_from_outcome fps_candidates w)
    as (w' & n & v & Hrun & N & Hw & Hh & Hlen & Hpos & Hreq & Hlast & Hv).
  exists w', n, v. split; [exact Hrun|]. split; [exact N|].
  split; [exact Hw|]. split; [exact Hh|]. split.
  - split; [apply Hpos; discriminate | exact Hlen].
  - auto.
Qed.

(** X4.  When [main] reaches the event loop the negotiated size is one of
    the seven candidates, the window is that wide and 30 pixels higher and is
    shown, the display box has exactly the negotiated size and shows no image
    yet, and the last five calls are: auto exposure on, auto focus on, the
    100 x 25 button, [show], and the first timeout with delay 0.  The button
    is horizontally centred and ends exactly at the lower edge of the
    window. *)
Theorem startup_lays_out_the_window d w0 :
  startup (world_init d) = Done true w0 ->
  In (optimal_width (app w0), optimal_height (app w0)) resolutions
  /\ window (app w0)
     = Some {| win_w := optimal_width (app w0);
               win_h := optimal_height (app w0) + 30;
               win_label := "摄像头监控（FLTK界面）"; win_shown := true |}
  /\ display_box (app w0)
     = Some {| box_w := optimal_width (app w0);
               box_h := optimal_height (app w0); box_image := None |}
  /\ exists t x,
       trace w0 =
         (t ++ [EvCapSet CAP_PROP_AUTO_EXPOSURE 1; EvCapSet CAP_PROP_AUTOFOCUS 1;
                EvNewButton x (optimal_height (app w0) + 5) 100 25 "截图";
                EvWindowShow; EvAddTimeout 0])%list
       /\ arms t = 0%nat
       /\ 2 * x + 100 = optimal_width (app w0)
       /\ 0 < x
       /\ (optimal_height (app w0) + 5) + 25 = optimal_height (app w0) + 30.
Proof.
  intros Hs.
  destruct (startup_ready d w0 Hs) as (_ & _ & _ & Hin).
  destruct (startup_shape _ _ Hs)
    as (w2 & _ & (_ & _ & _ & _ & _ & _ & t & Ht & Hneg) & _ & _ & ->).
  cbn in *. split; [exact Hin|]. split; [reflexivity|]. split; [reflexivity|].
  eexists. eexists. split; [reflexivity|]. split.
  - assert (Hz : List.filter is_timer_event t = []).
    { clear -Hneg. induction Hneg as [|e t He _ IH]; [reflexivity|].
      cbn. destruct e; cbn in *; try discriminate; exact IH. }
    rewrite Ht. unfold arms. cbn. rewrite Hz. reflexivity.
  - repeat (destruct Hin as [[= Hw Hh]|Hin];
            [rewrite <- Hw;
             match goal with |- context [Z.quot ?a ?b] =>
               let q := eval vm_compute in (Z.quot a b) in
               change (Z.quot a b) with q
             end; lia|]).
    contradiction.
Qed.

(** ** Snapshots in any state *)

(** X5.  A snapshot request never fails and never changes the application
    or the heap, whatever state it finds (also after a close).  It makes no
    call on the camera, arms no timer, makes none of the calls of a frame
    update, and attempts one file write when the display buffer is not empty
    and none when it is. *)
Theorem snapshot_never_faults_or_mutates (now_time : Z) (write_ok : bool) w :
  exists w' t,
    screenshot_callback now_time write_ok w = Done tt w'
    /\ app w' = app w /\ heap w' = heap w
    /\ trace w' = (trace w ++ t)%list
    /\ Forall (fun e => is_cap_event e = false /\ is_timer_event e = false
                        /\ is_pump_event e = false) t
    /\ writes t = (if Mat_empty (cached_frame (app w)) then 0 else 1)%nat.
Proof.
  destruct (Mat_empty (cached_frame (app w))) eqn:He.
  - rewrite (screenshot_callback_empty now_time write_ok w He).
    eexists. eexists. split; [reflexivity|]. cbn.
    do 3 (split; [reflexivity|]). split; [repeat constructor | reflexivity].
  - rewrite (screenshot_callback_writes now_time write_ok w He).
    eexists. eexists. split; [reflexivity|]. cbn.
    do 3 (split; [reflexivity|]).
    destruct write_ok; (split; [repeat constructor | reflexivity]).
Qed.

(** X6.  After a tick that latches, decodes and resizes, a snapshot writes
    exactly the resized camera frame: the conversion to display order done by
    the tick and the conversion back done by the snapshot cancel. *)
Theorem snapshot_saves_the_resized_camera_frame
    w d1 d2 m r (now_time : Z) (write_ok : bool) :
  ready w ->
  is_running (app w) = true ->
  vc_grab (cap (app w)) = (true, d1) ->
  vc_retrieve (frame (app w)) d1 = (true, m, d2) ->
  resize m (optimal_width (app w)) (optimal_height (app w)) = Some r ->
  exists w' w'',
    update_frame w = Done tt w'
    /\ frame (app w') = r
    /\ data (cached_frame (app w')) = List.map swap_channels (data r)
    /\ screenshot_callback now_time write_ok w' = Done tt w''
    /\ trace w'' =
       (trace w' ++
        [EvCvtColor COLOR_RGB2BGR;
         EvImwrite ("screenshot_" ++ to_string now_time ++ ".png") r write_ok] ++
        (if write_ok
         then [EvMessageTitle "截图成功";
               EvMessage ("图像已保存为:" ++ newline ++
                          ("screenshot_" ++ to_string now_time ++ ".png"))]
         else [EvAlert "截图失败" "无法保存图像文件"]))%list.
Proof.
  intros Hready Hrun Hg Hret Hres.
  pose proof Hready as ((v & Hv & _) & Hstep & _ & Hw & Hh).
  pose proof Hstep as (b & Hb & _).
  destruct (resize_size _ _ _ _ Hres) as [Er Ec].
  assert (Hne : Mat_empty r = false).
  { unfold Mat_empty. rewrite Er, Ec.
    apply orb_false_intro; apply Z.eqb_neq; lia. }
  pose proof (update_frame_pumps_exact w d1 d2 m r b v Hrun Hg Hret Hres Hne Hb Hv
                (image_in_step_live w Hstep)) as Hpump.
  match type of Hpump with _ = Done tt ?x => set (w' := x) in * end.
  assert (Hne' : Mat_empty (cached_frame (app w')) = false) by exact Hne.
  pose proof (screenshot_callback_writes now_time write_ok w' Hne') as Hshot.
  assert (Himg : {| rows := rows (cached_frame (app w'));
                    cols := cols (cached_frame (app w'));
                    data := List.map swap_channels
                              (data (cached_frame (app w'))) |} = r).
  { subst w'. cbn. destruct r as [rr rc rd]. cbn. f_equal.
    rewrite List.map_map. rewrite <- (List.map_id rd) at 2.
    apply List.map_ext. apply swap_channels_involutive. }
  rewrite Himg in Hshot.
  exists w'. eexists. split; [exact Hpump|]. split; [reflexivity|].
  split; [reflexivity|]. split; [exact Hshot|]. reflexivity.
Qed.

(** ** Whole runs *)

(** X7.  From the moment [main] enters the event loop until a close request
    is delivered, whatever else is delivered, the window stays shown, the
    display buffer keeps the negotiated size, and at most one image object is
    live: the one [fltk_img] points to, which is built over the current
    display buffer and is the image of the display box.  Every tick that
    replaces it deletes the old one first; nothing leaks. *)
Theorem image_object_stays_in_step d w0 (evs : list GuiEvent) :
  startup (world_init d) = Done true w0 ->
  closes evs = 0%nat ->
  ready (final (Fl_run evs w0))
  /\ (size (heap (final (Fl_run evs w0))) <= 1)%nat
  /\ (fltk_img (app (final (Fl_run evs w0))) = None ->
      heap (final (Fl_run evs w0)) = ∅)
  /\ (forall p, fltk_img (app (final (Fl_run evs w0))) = Some p ->
      heap (final (Fl_run evs w0))
      = {[ p := image_of (cached_frame (app (final (Fl_run evs w0)))) ]}).
Proof.
  intros Hs Hno. destruct (startup_ready d w0 Hs) as (Hready & _).
  destruct (Fl_run_keeps_ready evs w0 Hready Hno) as (Hr & _).
  split; [exact Hr|].
  destruct Hr as (_ & (b & _ & Himg) & _).
  destruct (fltk_img (app (final (Fl_run evs w0)))) as [p|].
  - destruct Himg as [-> _]. rewrite map_size_singleton.
    split; [lia|]. split; [discriminate|]. intros q [= <-]. reflexivity.
  - destruct Himg as [-> _]. rewrite map_size_empty.
    split; [lia|]. split; [reflexivity|]. discriminate.
Qed.

Lemma window_close_callback_without_image w v :
  fltk_img (app w) = None ->
  window (app w) = Some v ->
  window_close_callback w =
    Done tt
      {| app := set_window
                  (Some {| win_w := win_w v; win_h := win_h v;
                           win_label := win_label v; win_shown := false |})
                  (set_cap (vc_release (cap (app w)))
                     (set_is_running false (app w)));
         heap := heap w;
         trace := trace w ++ [EvCapRelease; EvWindowHide] |}.
Proof.
  intros Hp Hv. unfold window_close_callback. run.
  rewrite Hp. cbn. rewrite Hv. cbn. rewrite <- !app_assoc. reflexivity.
Qed.

Lemma window_close_callback_from_ready w :
  ready w ->
  exists w',
    window_close_callback w = Done tt w'
    /\ heap w' = ∅
    /\ is_running (app w') = false
    /\ cap (app w') = vc_release (cap (app w))
    /\ (exists v, window (app w') = Some v /\ win_shown v = false)
    /\ (exists b, display_box (app w') = Some b /\ box_image b = None)
    /\ same_buffers w w'
    /\ same_negotiation w w'
    /\ trace w' =
       (trace w ++ EvCapRelease ::
        match fltk_img (app w) with
        | Some p => [EvBoxImage None; EvDeleteImage p]
        | None => []
        end ++ [EvWindowHide])%list.
Proof.
  intros ((v & Hv & _) & (b & Hb & Himg) & _).
  destruct (fltk_img (app w)) as [p|] eqn:Hp.
  - destruct Himg as [Hheap Hbi].
    assert (Hl : heap w !! p = Some (image_of (cached_frame (app w)))).
    { rewrite Hheap. apply lookup_singleton_eq. }
    rewrite (window_close_callback_with_image w p _ b v Hp Hl Hb Hv).
    eexists. split; [reflexivity|]. cbn.
    split; [rewrite Hheap; apply delete_singleton_eq|].
    do 2 (split; [reflexivity|]).
    split; [eexists; split; reflexivity|].
    split; [eexists; split; reflexivity|].
    unfold same_buffers, same_negotiation. cbn. repeat split.
  - destruct Himg as [Hheap Hbi].
    rewrite (window_close_callback_without_image w v Hp Hv).
    eexists. split; [reflexivity|]. cbn. split; [exact Hheap|].
    do 2 (split; [reflexivity|]).
    split; [eexists; split; reflexivity|].
    split; [exists b; split; assumption|].
    unfold same_buffers, same_negotiation. cbn. repeat split.
Qed.

Lemma Fl_run_stopped_done evs : forall w,
  is_running (app w) = false -> closes evs = 0%nat ->
  exists w', Fl_run evs w = Done tt w'.
Proof.
  induction evs as [|e evs IH]; intros w Hs Hno.
  - cbn. eauto.
  - rewrite closes_cons in Hno. rewrite Fl_run_cons.
    destruct e as [|now_time write_ok|]; cbn in Hno; [| |discriminate];
      cbn [dispatch].
    + rewrite (update_frame_stopped w Hs). apply IH; assumption.
    + destruct (screenshot_callback_effect now_time write_ok w) as (Ea & _).
      destruct (screenshot_callback_done now_time write_ok w) as [w1 Hd].
      rewrite Hd in *. cbn [final] in Ea. apply IH; [|exact Hno].
      rewrite Ea. exact Hs.
Qed.

Lemma Fl_run_one_close evs : forall w,
  ready w -> (closes evs <= 1)%nat ->
  match Fl_run evs w with
  | Done _ _ => True
  | Stuck f w' =>
      f = CvException
      /\ last (trace w')
         = Some (EvResize (optimal_width (app w)) (optimal_height (app w)))
  end.
Proof.
  induction evs as [|e evs IH]; intros w Hready Hle.
  - exact I.
  - rewrite closes_cons in Hle. rewrite Fl_run_cons.
    destruct e as [|now_time write_ok|]; cbn in Hle; cbn [dispatch].
    + destruct (update_frame_keeps_ready w Hready) as [Hr Hf].
      destruct (update_frame_effect w) as ((Nw & Nh & _) & _).
      destruct (update_frame w) as [[] w1|f w1]; cbn [final] in *; [|exact Hf].
      specialize (IH w1 Hr Hle). rewrite Nw, Nh in IH. exact IH.
    + pose proof (screenshot_callback_keeps_ready now_time write_ok w Hready) as Hr.
      destruct (screenshot_callback_effect now_time write_ok w) as (Ea & _).
      destruct (screenshot_callback_done now_time write_ok w) as [w1 Hd].
      rewrite Hd in *. cbn [final] in *.
      specialize (IH w1 Hr Hle). rewrite Ea in IH. exact IH.
    + destruct (window_close_callback_from_ready w Hready)
        as (w1 & Hd & _ & Hs & _).
      rewrite Hd.
      destruct (Fl_run_stopped_done evs w1 Hs) as [w2 ->]; [lia|exact I].
Qed.

(** X8.  A run of the event loop that contains at most one close request
    never dereferences a null widget pointer and never deletes an image
    object that is not live: whatever stops such a run early, it is not the
    program's handling of its window, box and image pointers. *)
Theorem one_close_runs_are_memory_safe d w0 (evs : list GuiEvent) f w' :
  startup (world_init d) = Done true w0 ->
  (closes evs <= 1)%nat ->
  Fl_run evs w0 = Stuck f w' ->
  f <> NullPointer /\ (forall p, f <> DeleteDangling p).
Proof.
  intros Hs Hle Hrun. destruct (startup_ready d w0 Hs) as (Hready & _).
  pose proof (Fl_run_one_close evs w0 Hready Hle) as Hone.
  rewrite Hrun in Hone. destruct Hone as [-> _].
  split; [discriminate|]. intros p. discriminate.
Qed.

(** X9.  The first close request, delivered after any close-free run that
    has not faulted, succeeds: it stops the pump, releases the camera,
    detaches and deletes the image object if there is one (the heap is then
    empty), and hides the window, in this order; the buffers and the
    negotiated values are untouched, and everything delivered afterwards,
    short of another close, is handled without a fault. *)
Theorem first_close_releases_everything d w0 (evs rest : list GuiEvent) w :
  startup (world_init d) = Done true w0 ->
  closes evs = 0%nat ->
  Fl_run evs w0 = Done tt w ->
  closes rest = 0%nat ->
  exists w' w'',
    window_close_callback w = Done tt w'
    /\ heap w' = ∅
    /\ is_running (app w') = false
    /\ cap (app w') = vc_release (cap (app w))
    /\ (exists v, window (app w') = Some v /\ win_shown v = false)
    /\ (exists b, display_box (app w') = Some b /\ box_image b = None)
    /\ same_buffers w w'
    /\ same_negotiation w w'
    /\ trace w' =
       (trace w ++ EvCapRelease ::
        match fltk_img (app w) with
        | Some p => [EvBoxImage None; EvDeleteImage p]
        | None => []
        end ++ [EvWindowHide])%list
    /\ Fl_run rest w' = Done tt w''.
Proof.
  intros Hs Hno Hrun Hrest. destruct (startup_ready d w0 Hs) as (Hready & _).
  destruct (Fl_run_keeps_ready evs w0 Hready Hno) as (Hr & _).
  rewrite Hrun in Hr. cbn [final] in Hr.
  destruct (window_close_callback_from_ready w Hr)
    as (w' & Hd & Hheap & Hstop & Hcap & Hwin & Hbox & Hbuf & Hneg & Htrace).
  destruct (Fl_run_stopped_done rest w' Hstop Hrest) as [w'' Hd'].
  exists w', w''. repeat (split; [assumption|]). exact Hd'.
Qed.

(** ** The loop as the toolkit runs it *)














(** ** Counting calls *)

Lemma arms_app (t1 t2 : list Event) : arms (t1 ++ t2) = (arms t1 + arms t2)%nat.
Proof. unfold arms. rewrite List.filter_app, length_app. reflexivity. Qed.

Lemma grabs_app (t1 t2 : list Event) : grabs (t1 ++ t2) = (grabs t1 + grabs t2)%nat.
Proof. unfold grabs. rewrite List.filter_app, length_app. reflexivity. Qed.

Lemma writes_app (t1 t2 : list Event) :
  writes (t1 ++ t2) = (writes t1 + writes t2)%nat.
Proof. unfold writes. rewrite List.filter_app, length_app. reflexivity. Qed.

Lemma presses_cons e evs :
  presses (e :: evs) = ((if is_press e then 1 else 0) + presses evs)%nat.
Proof. unfold presses. cbn. destruct (is_press e); reflexivity. Qed.

Ltac count_trace :=
  rewrite <- ?app_assoc; cbn; eexists; split; [reflexivity|];
  unfold delivers, arms, grabs, writes; cbn;
  repeat split; try lia;
  repeat (constructor; try exact I; try (vm_compute; reflexivity)).

Lemma update_frame_delivers w :
  exists t, trace (final (update_frame w)) = (trace w ++ t)%list
            /\ delivers TimerExpired t.
Proof.
  unfold update_frame. run. split_matches; cbn.
  all: try count_trace.
  all: exists []; split; [apply extends_refl|];
       unfold delivers, arms, grabs, writes; cbn; repeat split; try lia;
       constructor.
Qed.

Lemma screenshot_callback_delivers now_time write_ok w :
  exists t, trace (final (screenshot_callback now_time write_ok w))
            = (trace w ++ t)%list
            /\ delivers (ScreenshotPressed now_time write_ok) t.
Proof.
  unfold screenshot_callback. run. split_matches; cbn.
  all: count_trace.
Qed.

Lemma window_close_callback_delivers w :
  exists t, trace (final (window_close_callback w)) = (trace w ++ t)%list
            /\ delivers CloseRequested t.
Proof.
  unfold window_close_callback. run. split_matches; cbn.
  all: count_trace.
Qed.

Lemma dispatch_delivers e w :
  exists t, trace (final (dispatch e w)) = (trace w ++ t)%list /\ delivers e t.
Proof.
  destruct e as [|now_time write_ok|]; cbn [dispatch].
  - apply update_frame_delivers.
  - apply screenshot_callback_delivers.
  - apply window_close_callback_delivers.
Qed.

Lemma Fl_run_delivers evs : forall w,
  exists t,
    trace (final (Fl_run evs w)) = (trace w ++ t)%list
    /\ (arms t <= ticks evs)%nat
    /\ (grabs t <= ticks evs)%nat
    /\ (writes t <= presses evs)%nat
    /\ Forall alert_shows_caption_only t.
Proof.
  induction evs as [|e evs IH]; intros w.
  - cbn. exists []. split; [apply extends_refl|].
    unfold arms, grabs, writes. cbn. repeat split; try lia. constructor.
  - rewrite Fl_run_cons, ticks_cons, presses_cons.
    destruct (dispatch_delivers e w) as (t1 & Ht1 & A1 & G1 & W1 & F1).
    destruct (dispatch e w) as [[] w1|f w1]; cbn [final] in *.
    + destruct (IH w1) as (t2 & Ht2 & A2 & G2 & W2 & F2).
      exists (t1 ++ t2)%list. split; [rewrite Ht2, Ht1, app_assoc; reflexivity|].
      rewrite arms_app, grabs_app, writes_app.
      split; [lia|]. split; [lia|]. split; [lia|].
      apply Forall_app. split; assumption.
    + exists t1. split; [exact Ht1|].
      split; [lia|]. split; [lia|]. split; [lia|]. exact F1.
Qed.

(** X10.  In any run of the event loop, from any state, the timer is armed
    at most once per timer expiry delivered, a frame is latched at most once
    per expiry, and a file write is attempted at most once per button press:
    ticks never write files, button presses and close requests never latch
    and never arm the timer. *)
Theorem deliveries_bound_the_effects (evs : list GuiEvent) w :
  exists t,
    trace (final (Fl_run evs w)) = (trace w ++ t)%list
    /\ (arms t <= ticks evs)%nat
    /\ (grabs t <= ticks evs)%nat
    /\ (writes t <= presses evs)%nat.
Proof.
  destruct (Fl_run_delivers evs w) as (t & Ht & A & G & W & _).
  exists t. auto.
Qed.

(** X11.  Every alert raised during a run of the event loop passes its
    caption as the format string and its explanation as an argument that the
    format never uses (no caption contains a conversion): what the dialog
    shows is the caption alone. *)
Theorem alerts_show_the_caption_only (evs : list GuiEvent) w :
  exists t,
    trace (final (Fl_run evs w)) = (trace w ++ t)%list
    /\ Forall alert_shows_caption_only t.
Proof.
  destruct (Fl_run_delivers evs w) as (t & Ht & _ & _ & _ & F).
  exists t. auto.
Qed.


(** ** After the pump has stopped *)

(** X12.  Once the pump has stopped with a frame in the display buffer,
    that frame stays available: after anything delivered since, a close
    request included, a snapshot still succeeds in converting and writes the
    pixels the buffer held when the pump stopped. *)
Theorem stopped_pump_keeps_the_last_frame
    (evs : list GuiEvent) (now_time : Z) (write_ok : bool) w :
  is_running (app w) = false ->
  Mat_empty (cached_frame (app w)) = false ->
  exists w',
    screenshot_callback now_time write_ok (final (Fl_run evs w)) = Done tt w'
    /\ In (EvImwrite ("screenshot_" ++ to_string now_time ++ ".png")
             {| rows := rows (cached_frame (app w));
                cols := cols (cached_frame (app w));
                data := List.map swap_channels (data (cached_frame (app w))) |}
             write_ok)
          (trace w')
    /\ app w' = app (final (Fl_run evs w)).
Proof.
  intros Hs He.
  destruct (Fl_run_stays_stopped evs w Hs) as (_ & (_ & _ & Hc) & _).
  assert (He' : Mat_empty (cached_frame (app (final (Fl_run evs w)))) = false)
    by (rewrite Hc; exact He).
  rewrite (screenshot_callback_writes now_time write_ok _ He').
  eexists. split; [reflexivity|]. cbn. split; [|reflexivity].
  rewrite Hc. apply in_or_app. right. right. left. reflexivity.
Qed.

Lemma camera_alerts_app (t1 t2 : list Event) :
  camera_alerts (t1 ++ t2) = (camera_alerts t1 + camera_alerts t2)%nat.
Proof. unfold camera_alerts. rewrite List.filter_app, length_app. reflexivity. Qed.

Ltac count_alerts :=
  rewrite <- ?app_assoc; cbn; eexists; split; [reflexivity|];
  unfold camera_alerts; cbn; auto.

Lemma update_frame_alerts w :
  exists t,
    trace (final (update_frame w)) = (trace w ++ t)%list
    /\ (camera_alerts t = 0%nat
        \/ camera_alerts t = 1%nat
           /\ fault_of (update_frame w) = None
           /\ is_running (app (final (update_frame w))) = false).
Proof.
  unfold update_frame. run. split_matches; cbn.
  all: try count_alerts.
  all: exists []; split; [apply extends_refl|]; left; reflexivity.
Qed.

Lemma quiet_callbacks_alerts e w :
  is_tick e = false ->
  exists t, trace (final (dispatch e w)) = (trace w ++ t)%list
            /\ camera_alerts t = 0%nat.
Proof.
  destruct e as [|now_time write_ok|]; [discriminate| |]; intros _; cbn [dispatch].
  - unfold screenshot_callback. run. split_matches; cbn.
    all: rewrite <- ?app_assoc; cbn; eexists; split; [reflexivity|]; reflexivity.
  - unfold window_close_callback. run. split_matches; cbn.
    all: rewrite <- ?app_assoc; cbn; eexists; split; [reflexivity|]; reflexivity.
Qed.

Lemma Fl_run_stopped_alerts evs : forall w,
  is_running (app w) = false ->
  exists t, trace (final (Fl_run evs w)) = (trace w ++ t)%list
            /\ camera_alerts t = 0%nat.
Proof.
  induction evs as [|e evs IH]; intros w Hs.
  - cbn. exists []. split; [apply extends_refl | reflexivity].
  - rewrite Fl_run_cons.
    pose proof (dispatch_stays_stopped e w Hs) as (Hs1 & _).
    destruct e as [|now_time write_ok|].
    + cbn [dispatch] in *. rewrite (update_frame_stopped w Hs) in *.
      apply IH. exact Hs.
    + destruct (quiet_callbacks_alerts (ScreenshotPressed now_time write_ok) w eq_refl)
        as (t1 & Ht1 & A1).
      destruct (dispatch _ w) as [[] w1|f w1]; cbn [final] in *.
      * destruct (IH w1 Hs1) as (t2 & Ht2 & A2).
        exists (t1 ++ t2)%list. rewrite camera_alerts_app, A1, A2.
        split; [rewrite Ht2, Ht1, app_assoc; reflexivity | reflexivity].
      * exists t1. auto.
    + destruct (quiet_callbacks_alerts CloseRequested w eq_refl) as (t1 & Ht1 & A1).
      destruct (dispatch _ w) as [[] w1|f w1]; cbn [final] in *.
      * destruct (IH w1 Hs1) as (t2 & Ht2 & A2).
        exists (t1 ++ t2)%list. rewrite camera_alerts_app, A1, A2.
        split; [rewrite Ht2, Ht1, app_assoc; reflexivity | reflexivity].
      * exists t1. auto.
Qed.

Lemma Fl_run_alerts evs : forall w,
  exists t, trace (final (Fl_run evs w)) = (trace w ++ t)%list
            /\ (camera_alerts t <= 1)%nat.
Proof.
  induction evs as [|e evs IH]; intros w.
  - cbn. exists []. split; [apply extends_refl | cbn; lia].
  - rewrite Fl_run_cons. destruct e as [|now_time write_ok|].
    + cbn [dispatch].
      destruct (update_frame_alerts w) as (t1 & Ht1 & [A1|(A1 & Hd & Hs)]).
      * destruct (update_frame w) as [[] w1|f w1]; cbn [final] in *.
        -- destruct (IH w1) as (t2 & Ht2 & A2).
           exists (t1 ++ t2)%list. rewrite camera_alerts_app, A1.
           split; [rewrite Ht2, Ht1, app_assoc; reflexivity | lia].
        -- exists t1. split; [exact Ht1 | lia].
      * destruct (update_frame w) as [[] w1|f w1]; cbn [final fault_of] in *;
          [|discriminate].
        destruct (Fl_run_stopped_alerts evs w1 Hs) as (t2 & Ht2 & A2).
        exists (t1 ++ t2)%list. rewrite camera_alerts_app, A1, A2.
        split; [rewrite Ht2, Ht1, app_assoc; reflexivity | lia].
    + destruct (quiet_callbacks_alerts (ScreenshotPressed now_time write_ok) w eq_refl)
        as (t1 & Ht1 & A1).
      destruct (dispatch _ w) as [[] w1|f w1]; cbn [final] in *.
      * destruct (IH w1) as (t2 & Ht2 & A2).
        exists (t1 ++ t2)%list. rewrite camera_alerts_app, A1.
        split; [rewrite Ht2, Ht1, app_assoc; reflexivity | lia].
      * exists t1. split; [exact Ht1 | lia].
    + destruct (quiet_callbacks_alerts CloseRequested w eq_refl) as (t1 & Ht1 & A1).
      destruct (dispatch _ w) as [[] w1|f w1]; cbn [final] in *.
      * destruct (IH w1) as (t2 & Ht2 & A2).
        exists (t1 ++ t2)%list. rewrite camera_alerts_app, A1.
        split; [rewrite Ht2, Ht1, app_assoc; reflexivity | lia].
      * exists t1. split; [exact Ht1 | lia].
Qed.

(** X13.  In any run of the event loop the camera-error alert is raised at
    most once: the tick that raises it stops the pump, and nothing delivered
    afterwards raises it again. *)
Theorem camera_error_is_reported_once (evs : list GuiEvent) w :
  exists t,
    trace (final (Fl_run evs w)) = (trace w ++ t)%list
    /\ (camera_alerts t <= 1)%nat
    /\ (is_running (app w) = false -> camera_alerts t = 0%nat).
Proof.
  destruct (Fl_run_alerts evs w) as (t & Ht & A).
  exists t. split; [exact Ht|]. split; [exact A|].
  intros Hs. destruct (Fl_run_stopped_alerts evs w Hs) as (t' & Ht' & A').
  rewrite Ht in Ht'. apply app_inv_head in Ht'. subst t'. exact A'.
Qed.

End Properties.

(** * The program on concrete cameras *)

(** ** Conversions and formatting *)

Example to_int_640 : Double.to_int 640%float = Some 640.
Proof. vm_compute. reflexivity. Qed.

Example to_int_discards_fraction : Double.to_int (-1919.99)%float = Some (-1919).
Proof. vm_compute. reflexivity. Qed.

Example to_int_nan : Double.to_int PrimFloat.nan = None.
Proof. vm_compute. reflexivity. Qed.

Example to_int_out_of_range : Double.to_int 2147483648%float = None.
Proof. vm_compute. reflexivity. Qed.

Example of_int_3840 : Double.of_int 3840 = 3840%float.
Proof. vm_compute. reflexivity. Qed.

Example within_one_59_9 : Double.within_one 59.9%float 60%float = true.
Proof. vm_compute. reflexivity. Qed.

Example within_one_excludes_one : Double.within_one 59%float 60%float = false.
Proof. vm_compute. reflexivity. Qed.

Example within_one_nan : Double.within_one PrimFloat.nan 60%float = false.
Proof. vm_compute. reflexivity. Qed.

Example to_string_seconds : to_string 1700000000 = "1700000000".
Proof. vm_compute. reflexivity. Qed.

Example to_string_negative : to_string (-5) = "-5".
Proof. vm_compute. reflexivity. Qed.

Example format_s_without_directive :
  format_s "截图失败" "没有可保存的图像数据" = "截图失败".
Proof. vm_compute. reflexivity. Qed.

(** ** Negotiation *)

(** C1, witness: the camera that accepts 1920 x 1080 is asked for 3840 x 2160,
    2560 x 1440 and 1920 x 1080, in this order, and for nothing more. *)
Lemma resolution_probe_stops_at_1080p :
  exists w',
    detect_resolutions (world_init cam_1080p) = Done tt w'
    /\ optimal_width (app w') = 1920
    /\ optimal_height (app w') = 1080
    /\ requests (trace w')
       = all_size_requests [(3840, 2160); (2560, 1440); (1920, 1080)].
Proof.
  destruct (proj1 (proj2 (resolution_probe_accepts_first_exact_match
                            (world_init cam_1080p)))
              [(3840, 2160); (2560, 1440)] (1920, 1080)
              [(1280, 720); (1280, 960); (800, 600); (640, 480)] eq_refl)
    as (w' & Hrun & Hw & Hh & _ & _ & Hreq).
  - vm_compute. reflexivity.
  - vm_compute. reflexivity.
  - exists w'. split; [exact Hrun|]. split; [exact Hw|]. split; [exact Hh|].
    exact Hreq.
Defined.

(** C1, counterexample: the camera that answers 320 x 240 to everything
    rejects all seven candidates, the last one (640 x 480) included, and the
    optimal size afterwards is 640 x 480, not the last read-back. *)
Lemma resolution_fallback_is_not_the_last_readback :
  resolutions_all_rejected resolutions cam_stubborn = true
  /\ answered_size (640, 480)
       (after_resolutions (removelast resolutions) cam_stubborn)
     = (Some 320, Some 240)
  /\ (exists w',
        detect_resolutions (world_init cam_stubborn) = Done tt w'
        /\ optimal_width (app w') = 640
        /\ optimal_height (app w') = 480
        /\ (optimal_width (app w'), optimal_height (app w')) <> (320, 240)).
Proof.
  split; [vm_compute; reflexivity|]. split; [vm_compute; reflexivity|].
  eexists. split; [vm_compute; reflexivity|].
  split; [reflexivity|]. split; [reflexivity|]. cbn. congruence.
Qed.

(** C4, witness: the read-backs 59.9, 49.0, 30.0.  The first one is within
    one unit of 60, so 59.9 is selected after the single request 60; the
    other read-backs are never asked for. *)
Lemma fps_probe_selects_59_9 :
  exists w',
    detect_fps (world_init cam_59_9) = Done tt w'
    /\ optimal_fps (app w') = 59.9%float
    /\ requests (trace w') = [(CAP_PROP_FPS, 60%float)]
    /\ sc_answers (cap (app w')) = [49.0; 30.0]%float.
Proof.
  destruct (proj1 (proj2 (fps_probe_accepts_first_within_one
                            (world_init cam_59_9)))
              [] 60%float [50; 30; 25; 24; 15; 10]%float eq_refl)
    as (w' & Hrun & Hfps & Happ & _ & Hreq).
  - vm_compute. reflexivity.
  - vm_compute. reflexivity.
  - exists w'. split; [exact Hrun|]. split; [exact Hfps|]. split; [exact Hreq|].
    rewrite Happ. reflexivity.
Defined.

(** Every candidate rejected: the rate is whatever is read last, here 0. *)
Example fps_probe_falls_back_to_zero :
  optimal_fps (app (started cam_no_rate)) = 0%float
  /\ fps_all_rejected fps_candidates
       (after_resolutions resolutions cam_no_rate) = true.
Proof. split; vm_compute; reflexivity. Qed.

(** Every candidate rejected by a driver that reports -5: the period of the
    first tick is negative. *)
Example fps_probe_falls_back_to_negative :
  optimal_fps (app (started cam_negative_rate)) = (-5)%float
  /\ fps_all_rejected fps_candidates
       (after_resolutions resolutions cam_negative_rate) = true
  /\ last (trace (final (update_frame (started cam_negative_rate))))
     = Some (EvRepeatTimeout (-0.2)%float)
  /\ Double.positive_finite (-0.2)%float = false.
Proof. repeat split; vm_compute; reflexivity. Qed.

(** The end-to-end case of the specification. *)
Example startup_1080p_30 :
  optimal_width (app (started cam_1080p)) = 1920
  /\ optimal_height (app (started cam_1080p)) = 1080
  /\ optimal_fps (app (started cam_1080p)) = 30%float
  /\ rows (cached_frame (app (final (update_frame (started cam_1080p))))) = 1080
  /\ cols (cached_frame (app (final (update_frame (started cam_1080p))))) = 1920.
Proof. repeat split; vm_compute; reflexivity. Qed.

(** ** Ticks *)

(** C6, witness: the first tick of the camera that cannot latch. *)
Lemma latch_failure_on_dead_camera :
  exists w',
    update_frame (started cam_dead) = Done tt w'
    /\ is_running (app w') = false
    /\ trace w' = (trace (started cam_dead) ++
                   [EvCapGrab false;
                    EvAlert "摄像头错误" "无法捕获视频帧，程序将退出"])%list
    /\ forall evs, stays_stopped w' (final (Fl_run evs w')).
Proof.
  destruct (latch_failure_stops_the_pump (started cam_dead)
              (snd (vc_grab (cap (app (started cam_dead))))))
    as (w' & Hrun & Hstop & Htrace & _ & Hlater).
  - vm_compute. reflexivity.
  - vm_compute. reflexivity.
  - exists w'. auto.
Defined.

(** C5, witness: the second tick of [cam_ok] latches and fails to decode;
    the display buffer still holds the first frame. *)
Lemma decode_failure_after_first_frame :
  exists w',
    update_frame after_first_tick = Done tt w'
    /\ is_running (app w') = false
    /\ cached_frame (app w') = cached_frame (app after_first_tick)
    /\ trace w' = (trace after_first_tick ++
                   [EvCapGrab true; EvCapRetrieve false;
                    EvAlert "摄像头错误" "无法解码视频帧，程序将退出"])%list.
Proof.
  destruct (decode_failure_keeps_display_buffer after_first_tick
              (snd (vc_grab (cap (app after_first_tick))))
              (snd (vc_retrieve (frame (app after_first_tick))
                      (snd (vc_grab (cap (app after_first_tick))))))
              Mat_default)
    as (w' & Hrun & Hstop & Hcached & _ & _ & _ & _ & Htrace).
  - vm_compute. reflexivity.
  - vm_compute. reflexivity.
  - vm_compute. reflexivity.
  - exists w'. auto.
Defined.

(** C9, witness: after the failed latch nothing that is delivered brings the
    pump back. *)
Lemma dead_camera_stays_stopped :
  stays_stopped (final (update_frame (started cam_dead)))
    (final (Fl_run [TimerExpired; ScreenshotPressed 1700000000 true; TimerExpired]
              (final (update_frame (started cam_dead)))))
  /\ window (app (final (Fl_run [TimerExpired; ScreenshotPressed 1700000000 true;
                                 TimerExpired]
                           (final (update_frame (started cam_dead))))))
     = window (app (started cam_dead)).
Proof.
  destruct (stopped_flag_is_permanent
              [TimerExpired; ScreenshotPressed 1700000000 true; TimerExpired]
              (final (update_frame (started cam_dead))))
    as (_ & Hquiet & _ & Hsame).
  - vm_compute. reflexivity.
  - split; [exact Hquiet|].
    destruct Hsame as [Happ _].
    + intros [Hin|[Hin|[Hin|[]]]]; discriminate.
    + rewrite Happ. vm_compute. reflexivity.
Defined.

(** C10, witness: the camera that reports rate 0 makes the first successful
    tick arm the timer with 1 / 0, which is infinite. *)
Lemma zero_rate_arms_an_infinite_timer :
  optimal_fps (app (started cam_no_rate)) = 0%float
  /\ (1 / optimal_fps (app (started cam_no_rate)))%float = infinity
  /\ Double.positive_finite infinity = false
  /\ exists w' t,
       update_frame (started cam_no_rate) = Done tt w'
       /\ trace w' = (trace (started cam_no_rate) ++ t ++
                      [EvRepeatTimeout
                         (1 / optimal_fps (app (started cam_no_rate)))%float])%list.
Proof.
  split; [vm_compute; reflexivity|]. split; [vm_compute; reflexivity|].
  split; [vm_compute; reflexivity|].
  destruct (nn_resize_defined tiny_frame
              (optimal_width (app (started cam_no_rate)))
              (optimal_height (app (started cam_no_rate))))
    as (r & Hr & Hne); [vm_compute; reflexivity ..|].
  destruct (tick_period_is_unguarded_reciprocal (started cam_no_rate)
              (snd (vc_grab (cap (app (started cam_no_rate)))))
              (snd (vc_retrieve (frame (app (started cam_no_rate)))
                      (snd (vc_grab (cap (app (started cam_no_rate)))))))
              tiny_frame r)
    as ((w' & t & Hrun & Htrace & _) & _ & _).
  - vm_compute. reflexivity.
  - vm_compute. reflexivity.
  - vm_compute. reflexivity.
  - exact Hr.
  - exact Hne.
  - split; [vm_compute; discriminate|]. split; [vm_compute; discriminate|].
    intros p. vm_compute. discriminate.
  - exists w', t. auto.
Defined.

(** ** Snapshots *)

(** C7, witness: a snapshot of the first frame at second 1700000000 whose
    write succeeds. *)
Lemma snapshot_of_first_frame :
  exists bgr,
    cvtColor (cached_frame (app after_first_tick)) COLOR_RGB2BGR = Some bgr
    /\ screenshot_callback 1700000000 true after_first_tick =
       Done tt
         {| app := app after_first_tick; heap := heap after_first_tick;
            trace := trace after_first_tick ++
              [EvCvtColor COLOR_RGB2BGR;
               EvImwrite "screenshot_1700000000.png" bgr true;
               EvMessageTitle "截图成功";
               EvMessage ("图像已保存为:" ++ newline ++ "screenshot_1700000000.png")] |}.
Proof.
  destruct (snapshot_writes_one_timestamped_file 1700000000 true after_first_tick)
    as (bgr & Hbgr & _ & _ & Hrun).
  - vm_compute. reflexivity.
  - exists bgr. split; [exact Hbgr|]. exact Hrun.
Defined.

(** C2, witness: with the camera that never delivers a frame, the first tick
    fails, no image object exists, and still a snapshot request writes the
    buffer that [main] allocated and reports success. *)
Lemma snapshot_without_any_frame_writes_a_file :
  fltk_img (app (final (Fl_run [TimerExpired] (started cam_dead)))) = None
  /\ Mat_empty (cached_frame (app (final (Fl_run [TimerExpired] (started cam_dead)))))
     = false
  /\ exists bgr,
       screenshot_callback 1700000000 true
         (final (Fl_run [TimerExpired] (started cam_dead))) =
         Done tt
           {| app := app (final (Fl_run [TimerExpired] (started cam_dead)));
              heap := heap (final (Fl_run [TimerExpired] (started cam_dead)));
              trace := trace (final (Fl_run [TimerExpired] (started cam_dead))) ++
                [EvCvtColor COLOR_RGB2BGR;
                 EvImwrite "screenshot_1700000000.png" bgr true;
                 EvMessageTitle "截图成功";
                 EvMessage ("图像已保存为:" ++ newline ++
                            "screenshot_1700000000.png")] |}.
Proof.
  split; [vm_compute; reflexivity|].
  destruct (snapshot_guard_is_dead_after_startup cam_dead (started cam_dead)
              [TimerExpired] 1700000000 true)
    as (_ & Hne & bgr & Hrun).
  - vm_compute. reflexivity.
  - split; [exact Hne|]. exists bgr. exact Hrun.
Defined.

(** ** The display buffer over a run *)

(** C8, witness: [cam_ok] through two ticks, a snapshot and a close. *)
Lemma display_buffer_size_over_a_run :
  display_matches_optimal (started cam_ok)
  /\ keeps_size (started cam_ok)
       (final (Fl_run [TimerExpired; TimerExpired;
                       ScreenshotPressed 1700000000 true; CloseRequested]
                 (started cam_ok))).
Proof.
  apply (display_buffer_has_negotiated_size (world_init cam_ok)).
  vm_compute. reflexivity.
Defined.

(** ** Closing twice *)

(** The callback run twice by hand: after the first frame of [cam_ok] the
    image object lives at address 1, and a second run would delete it
    again. *)
Lemma closing_twice_after_first_frame :
  exists w1 w2,
    window_close_callback after_first_tick = Done tt w1
    /\ window_close_callback w1 = Stuck (DeleteDangling 1%positive) w2.
Proof.
  destruct (second_close_deletes_image_again after_first_tick 1%positive
              {| img_w := 640; img_h := 480; img_d := 3; img_ld := 0 |}
              {| box_w := 640; box_h := 480; box_image := Some 1%positive |}
              {| win_w := 640; win_h := 510;
                 win_label := "摄像头监控（FLTK界面）"; win_shown := true |})
    as ((w1 & w2 & H1 & _ & _ & H2 & _) & _).
  - vm_compute. reflexivity.
  - vm_compute. reflexivity.
  - vm_compute. reflexivity.
  - vm_compute. reflexivity.
  - exists w1, w2. auto.
Defined.

(** ** The further properties on concrete cameras *)

Lemma done_is_final (o : @Outcome ScriptCam unit) :
  fault_of o = None -> o = Done tt (final o).
Proof. destruct o as [[] w|f w]; [reflexivity|discriminate]. Qed.

Lemma stuck_is_final (o : @Outcome ScriptCam unit) f :
  fault_of o = Some f -> o = Stuck f (final o).
Proof. destruct o as [[] w|f' w]; [discriminate|]. intros [= ->]. reflexivity. Qed.

Lemma started_cam_ok_ready : ready (started cam_ok).
Proof.
  apply (startup_ready cam_ok (started cam_ok)). vm_compute. reflexivity.
Qed.

(** X1, witness: the camera that cannot be opened. *)
Lemma absent_camera_exits_with_minus_one :
  main [TimerExpired; CloseRequested] (world_init cam_absent) =
    Done (-1)
      {| app := app_init cam_absent; heap := ∅;
         trace := [EvCapOpen 0; EvCapIsOpened false;
                   EvAlert "初始化失败" "无法打开摄像头，请检查设备是否连接"] |}.
Proof.
  rewrite (proj1 (main_exit_code [TimerExpired; CloseRequested]
                    (world_init cam_absent))).
  - vm_compute. reflexivity.
  - vm_compute. reflexivity.
Defined.

(** X4, witness: [cam_ok] gets a 640 x 510 window with the button at 270. *)
Lemma window_of_cam_ok :
  window (app (started cam_ok))
  = Some {| win_w := 640; win_h := 510;
            win_label := "摄像头监控（FLTK界面）"; win_shown := true |}
  /\ exists t x,
       trace (started cam_ok) =
         (t ++ [EvCapSet CAP_PROP_AUTO_EXPOSURE 1; EvCapSet CAP_PROP_AUTOFOCUS 1;
                EvNewButton x
                  (optimal_height (app (started cam_ok)) + 5) 100 25 "截图";
                EvWindowShow; EvAddTimeout 0])%list
       /\ 2 * x + 100 = optimal_width (app (started cam_ok)).
Proof.
  destruct (startup_lays_out_the_window cam_ok (started cam_ok))
    as (_ & Hwin & _ & t & x & Ht & _ & Hx & _).
  - vm_compute. reflexivity.
  - split.
    + rewrite Hwin. vm_compute. reflexivity.
    + exists t, x. auto.
Defined.

(** X6, witness: the first frame of [cam_ok], saved at second 1700000000. *)
Lemma first_frame_of_cam_ok_is_saved_resized :
  exists r w' w'',
    nn_resize tiny_frame 640 480 = Some r
    /\ update_frame (started cam_ok) = Done tt w'
    /\ screenshot_callback 1700000000 true w' = Done tt w''
    /\ trace w'' =
       (trace w' ++
        [EvCvtColor COLOR_RGB2BGR;
         EvImwrite "screenshot_1700000000.png" r true;
         EvMessageTitle "截图成功";
         EvMessage ("图像已保存为:" ++ newline ++ "screenshot_1700000000.png")])%list.
Proof.
  destruct (nn_resize_defined tiny_frame 640 480) as (r & Hr & _);
    [vm_compute; reflexivity ..|].
  destruct (snapshot_saves_the_resized_camera_frame (started cam_ok)
              (snd (vc_grab (cap (app (started cam_ok)))))
              (snd (vc_retrieve (frame (app (started cam_ok)))
                      (snd (vc_grab (cap (app (started cam_ok)))))))
              tiny_frame r 1700000000 true)
    as (w' & w'' & Hpump & _ & _ & Hshot & Htrace).
  - exact started_cam_ok_ready.
  - vm_compute. reflexivity.
  - vm_compute. reflexivity.
  - vm_compute. reflexivity.
  - exact Hr.
  - exists r, w', w''. auto.
Defined.

(** X7, witness: [cam_ok] through two ticks and a snapshot. *)
Lemma cam_ok_keeps_one_image :
  (size (heap (final (Fl_run [TimerExpired; ScreenshotPressed 1700000000 true;
                              TimerExpired] (started cam_ok)))) <= 1)%nat
  /\ ready (final (Fl_run [TimerExpired; ScreenshotPressed 1700000000 true;
                           TimerExpired] (started cam_ok))).
Proof.
  destruct (image_object_stays_in_step cam_ok (started cam_ok)
              [TimerExpired; ScreenshotPressed 1700000000 true; TimerExpired])
    as (Hready & Hsize & _).
  - vm_compute. reflexivity.
  - reflexivity.
  - auto.
Defined.

(** X8, witness: [cam_blank] decodes an empty frame, and the run ends in the
    exception that [cv::resize] throws on it. *)
Lemma blank_frame_ends_in_an_exception :
  fault_of (Fl_run [TimerExpired; CloseRequested] (started cam_blank))
  = Some CvException
  /\ CvException <> NullPointer
  /\ forall p, CvException <> DeleteDangling p.
Proof.
  split; [vm_compute; reflexivity|].
  apply (one_close_runs_are_memory_safe cam_blank (started cam_blank)
           [TimerExpired; CloseRequested] CvException
           (final (Fl_run [TimerExpired; CloseRequested] (started cam_blank)))).
  - vm_compute. reflexivity.
  - vm_compute. lia.
  - apply stuck_is_final. vm_compute. reflexivity.
Defined.

(** X9, witness: closing [cam_ok] after its first frame, then a tick and a
    snapshot. *)
Lemma closing_cam_ok_after_first_frame :
  exists w' w'',
    window_close_callback (final (Fl_run [TimerExpired] (started cam_ok)))
    = Done tt w'
    /\ heap w' = ∅
    /\ is_running (app w') = false
    /\ Fl_run [TimerExpired; ScreenshotPressed 1700000000 true] w' = Done tt w''.
Proof.
  destruct (first_close_releases_everything cam_ok (started cam_ok)
              [TimerExpired] [TimerExpired; ScreenshotPressed 1700000000 true]
              (final (Fl_run [TimerExpired] (started cam_ok))))
    as (w' & w'' & Hclose & Hheap & Hstop & _ & _ & _ & _ & _ & _ & Hrest).
  - vm_compute. reflexivity.
  - reflexivity.
  - apply done_is_final. vm_compute. reflexivity.
  - reflexivity.
  - exists w', w''. auto.
Defined.

(** X12, witness: [cam_ok] shows one frame, fails to decode the second, is
    closed, and still saves the frame it showed. *)
Lemma last_frame_survives_stop_and_close :
  exists w',
    screenshot_callback 1700000000 true
      (final (Fl_run [CloseRequested; TimerExpired]
                (final (Fl_run [TimerExpired; TimerExpired] (started cam_ok)))))
    = Done tt w'
    /\ In (EvImwrite "screenshot_1700000000.png"
             {| rows := rows (cached_frame (app after_first_tick));
                cols := cols (cached_frame (app after_first_tick));
                data := List.map swap_channels
                          (data (cached_frame (app after_first_tick))) |}
             true)
          (trace w').
Proof.
  destruct (stopped_pump_keeps_the_last_frame [CloseRequested; TimerExpired]
              1700000000 true
              (final (Fl_run [TimerExpired; TimerExpired] (started cam_ok))))
    as (w' & Hshot & Hin & _).
  - vm_compute. reflexivity.
  - vm_compute. reflexivity.
  - exists w'. split; [exact Hshot|]. exact Hin.
Defined.


(** X2, witness: [cam_1080p] answers every read-back within [int] and
    accepts the third candidate. *)
Lemma probing_cam_1080p_returns :
  exists w' n,
    detect_resolutions (world_init cam_1080p) = Done tt w'
    /\ negotiated (world_init cam_1080p) w'
    /\ (n <= 7)%nat
    /\ requests (trace w') = all_size_requests (firstn n resolutions).
Proof.
  destruct (resolution_probe_outcomes (world_init cam_1080p))
    as (w' & n & Hrun & Hneg & _ & Hn & Hreq & _).
  - vm_compute. reflexivity.
  - exists w', n. auto.
Defined.
